(** * Falcon-LLM, Chapter 02: the task-tuning notebook

    A shallow embedding of [Chapter02/Task_Tuning_Falcon.ipynb]: the
    [GlueDataset] wrapper, the [CustomClassifier] module, the training
    and evaluation cells and the final [torch.save].

    The notebook is a client of three libraries (transformers, torch,
    datasets).  What the notebook itself writes is embedded as
    definitions; what it calls in those libraries (the sub-word
    tokenizer, the pre-trained encoder, automatic differentiation, the
    AdamW update rule, the random number generator) is a [Variable] of a
    section, with the part of its documented contract a proof relies on
    as an explicit hypothesis. Rational numbers stand in for floats:
    rounding is not modelled. *)

From Stdlib Require Import ZArith QArith Lia.
From stdpp Require Import base option list strings pretty gmap fin_maps.

Local Open Scope string_scope.
Local Open Scope list_scope.
Set Warnings "-register-all".

(** ** Exceptions and fallible computations *)

(** The Python exceptions that the modelled cells can raise. *)
Inductive exn : Type :=
| IndexError
| KeyError
| ZeroDivisionError
| RuntimeError
| ValueError.

Inductive result (A : Type) : Type :=
| Ok (a : A)
| Raise (e : exn).

Arguments Ok {A} a.
Arguments Raise {A} e.

Definition bind {A B} (m : result A) (k : A → result B) : result B :=
  match m with
  | Ok a => k a
  | Raise e => Raise e
  end.

Notation "'let*' x ':=' m 'in' k" := (bind m (λ x, k))
  (at level 10, x name, m at level 100, k at level 200).
Notation "'let*' ' pat ':=' m 'in' k" := (bind m (λ x, match x with pat => k end))
  (at level 10, pat pattern, m at level 100, k at level 200).

Definition is_ok {A} (m : result A) : bool :=
  match m with Ok _ => true | Raise _ => false end.

(** [for x in xs: acc = body(acc, x)], aborting at the first exception. *)
Fixpoint for_each {S A} (body : S → A → result S) (xs : list A) (s : S) : result S :=
  match xs with
  | [] => Ok s
  | x :: xs' => let* s' := body s x in for_each body xs' s'
  end.

(** [[f(x) for x in xs]], aborting at the first exception. *)
Fixpoint traverse {A B} (f : A → result B) (xs : list A) : result (list B) :=
  match xs with
  | [] => Ok []
  | x :: xs' => let* y := f x in let* ys := traverse f xs' in Ok (y :: ys)
  end.

(** ** Tensors *)

(** A tensor as nested sequences: a 0-dimensional tensor is a [Scalar],
    a tensor of dimension [n+1] is a [Dim] of tensors of dimension [n]. *)
Inductive tensor (A : Type) : Type :=
| Scalar (a : A)
| Dim (ts : list (tensor A)).

Arguments Scalar {A} a.
Arguments Dim {A} ts.

(** [has_shape s t]: [t.shape == s]. *)
Fixpoint has_shape {A} (s : list nat) (t : tensor A) : bool :=
  match s, t with
  | [], Scalar _ => true
  | n :: s', Dim ts => Nat.eqb (length ts) n && forallb (has_shape s') ts
  | _, _ => false
  end.

(** [t.squeeze(0)]: drops the first dimension when its size is 1 and
    returns [t] unchanged otherwise. *)
Definition squeeze0 {A} (t : tensor A) : tensor A :=
  match t with
  | Dim [t'] => t'
  | _ => t
  end.

(** [t.shape], read along the first element of every dimension. *)
Fixpoint shape {A} (t : tensor A) : list nat :=
  match t with
  | Scalar _ => []
  | Dim ts => length ts :: match ts with [] => [] | t0 :: _ => shape t0 end
  end.

(** [torch.stack(ts, 0)]: the tensors must all have the shape of the
    first one, and there must be one at least. *)
Definition stack {A} (ts : list (tensor A)) : result (tensor A) :=
  match ts with
  | [] => Raise RuntimeError
  | t0 :: _ =>
      if forallb (has_shape (shape t0)) ts then Ok (Dim ts) else Raise RuntimeError
  end.

(** [a + b] on tensors of one shape (how a gradient is accumulated). *)
Fixpoint tensor_add (a b : tensor Q) : tensor Q :=
  match a, b with
  | Scalar x, Scalar y => Scalar (x + y)%Q
  | Dim xs, Dim ys =>
      Dim ((fix go (xs : list (tensor Q)) (ys : list (tensor Q)) : list (tensor Q) :=
              match xs, ys with
              | x :: xs', y :: ys' => tensor_add x y :: go xs' ys'
              | _, _ => []
              end) xs ys)
  | _, _ => a
  end.

(** A 1-dimensional tensor from a Python list, [torch.tensor(xs)]. *)
Definition vector {A} (xs : list A) : tensor A := Dim (Scalar <$> xs).

(** A 2-dimensional tensor from a list of rows. *)
Definition matrix {A} (xss : list (list A)) : tensor A := Dim (vector <$> xss).

(** Reading a tensor back as a list, failing on another dimension. *)
Definition as_scalar {A} (t : tensor A) : result A :=
  match t with
  | Scalar a => Ok a
  | Dim _ => Raise RuntimeError
  end.

Definition as_vector {A} (t : tensor A) : result (list A) :=
  match t with
  | Scalar _ => Raise RuntimeError
  | Dim ts => traverse as_scalar ts
  end.

Definition as_matrix {A} (t : tensor A) : result (list (list A)) :=
  match t with
  | Scalar _ => Raise RuntimeError
  | Dim ts => traverse as_vector ts
  end.

(** ** Python sequences *)

(** [l[idx]] on a Python list: a negative index counts from the end,
    anything outside [-len(l) .. len(l)-1] raises [IndexError]. *)
Definition list_getitem {A} (l : list A) (idx : Z) : result A :=
  let n := Z.of_nat (length l) in
  let i := if (idx <? 0)%Z then (idx + n)%Z else idx in
  if ((i <? 0) || (n <=? i))%Z then Raise IndexError
  else match l !! Z.to_nat i with
       | Some a => Ok a
       | None => Raise IndexError
       end.

(** [zip(a, b, c)]: stops at the shortest argument. *)
Fixpoint zip3 {A B C} (a : list A) (b : list B) (c : list C) : list (A * B * C) :=
  match a, b, c with
  | x :: a', y :: b', z :: c' => (x, y, z) :: zip3 a' b' c'
  | _, _, _ => []
  end.

(** ** The raw dataset *)

(** One row of GLUE/MRPC: a sentence pair and its label. *)
Record example : Type := {
  sentence1 : string;
  sentence2 : string;
  label : Z;
}.

(** A split of [load_dataset("glue", "mrpc")] is a table of rows;
    [raw[name]] is the column [name] of that table. *)
Abbreviation RawDataset := (list example).

Definition column {A} (field : example → A) (raw : RawDataset) : list A :=
  field <$> raw.

(** [d[key]] on a Python dictionary. *)
Definition dict_getitem {V} (d : gmap string V) (key : string) : result V :=
  match d !! key with
  | Some v => Ok v
  | None => Raise KeyError
  end.

(** What the tokenizer returns, what [__getitem__] returns and what a
    loader yields: a dictionary from field names to integer tensors. *)
Abbreviation BatchEncoding := (gmap string (tensor Z)).

(** ** Modules and their parameters *)

(** A [torch.nn.Parameter]: the tensor, whether autograd tracks it, and
    its [.grad] field. *)
Record Param : Type := {
  data : tensor Q;
  requires_grad : bool;
  grad : option (tensor Q);
}.

Definition nn_Parameter (d : tensor Q) : Param :=
  {| data := d; requires_grad := true; grad := None |}.

Definition set_data (d : tensor Q) (p : Param) : Param :=
  {| data := d; requires_grad := requires_grad p; grad := grad p |}.

Definition set_grad (g : option (tensor Q)) (p : Param) : Param :=
  {| data := data p; requires_grad := requires_grad p; grad := g |}.

(** The object [AutoModel.from_pretrained] returns, as far as the
    notebook looks into it: [config.hidden_size] and the named
    parameters. Its architecture is the function [base_model_call]
    below. *)
Record PreTrainedModel : Type := {
  config_hidden_size : nat;
  base_parameters : list (string * Param);
}.

Record Linear : Type := {
  in_features : nat;
  out_features : nat;
  weight : Param;
  bias : Param;
}.

(** The two kinds of layers that the notebook puts in an
    [nn.Sequential]. *)
Inductive Layer : Type :=
| Dropout (p : Q)
| LinearLayer (l : Linear).

Record CustomClassifier : Type := {
  base_model : PreTrainedModel;
  classifier : list Layer;
  training : bool;
}.

(** [named_parameters()]: every parameter under its qualified name, the
    children in the order they were registered. *)
Definition with_prefix {V} (prefix : string) (ps : list (string * V)) : list (string * V) :=
  (λ '(k, v), (prefix +:+ k, v)) <$> ps.

Definition Linear_named_parameters (l : Linear) : list (string * Param) :=
  [("weight", weight l); ("bias", bias l)].

Definition Layer_named_parameters (l : Layer) : list (string * Param) :=
  match l with
  | Dropout _ => []
  | LinearLayer l => Linear_named_parameters l
  end.

Definition Sequential_named_parameters (layers : list Layer) : list (string * Param) :=
  concat (imap (λ i l, with_prefix (pretty i +:+ ".") (Layer_named_parameters l)) layers).

Definition named_parameters (self : CustomClassifier) : list (string * Param) :=
  with_prefix "base_model." (base_parameters (base_model self)) ++
  with_prefix "classifier." (Sequential_named_parameters (classifier self)).

(** The parameters that a forward pass through the layers reads, the
    leaves of the graph that autograd records for its result: a linear
    layer computes [F.linear(input, self.weight, self.bias)], a dropout
    layer has no parameter. *)
Definition Linear_graph (l : Linear) : list string := ["weight"; "bias"].

Definition Layer_graph (l : Layer) : list string :=
  match l with
  | Dropout _ => []
  | LinearLayer l => Linear_graph l
  end.

Definition Sequential_graph (layers : list Layer) : list string :=
  concat (imap (λ i l, (λ k, (pretty i +:+ ".") +:+ k) <$> Layer_graph l) layers).

(** [state_dict()]: the tensors of the named parameters. *)
Abbreviation StateDict := (list (string * tensor Q)).

Definition tensors (ps : list (string * Param)) : StateDict :=
  (λ '(k, p), (k, data p)) <$> ps.

Definition Sequential_state_dict (layers : list Layer) : StateDict :=
  tensors (Sequential_named_parameters layers).

Definition state_dict (self : CustomClassifier) : StateDict :=
  tensors (named_parameters self).

(** An in-place change [f name p] of every parameter, by qualified
    name: what [zero_grad], [backward] and [step] do to the parameter
    objects that the module and the optimizer share. *)
Definition Linear_update (f : string → Param → Param) (prefix : string)
    (l : Linear) : Linear :=
  {| in_features := in_features l;
     out_features := out_features l;
     weight := f (prefix +:+ "weight") (weight l);
     bias := f (prefix +:+ "bias") (bias l) |}.

Definition Layer_update (f : string → Param → Param) (prefix : string)
    (l : Layer) : Layer :=
  match l with
  | Dropout p => Dropout p
  | LinearLayer l => LinearLayer (Linear_update f prefix l)
  end.

Definition update_parameters (f : string → Param → Param)
    (self : CustomClassifier) : CustomClassifier :=
  {| base_model :=
       {| config_hidden_size := config_hidden_size (base_model self);
          base_parameters :=
            (λ '(k, p), (k, f ("base_model." +:+ k) p)) <$> base_parameters (base_model self) |};
     classifier :=
       imap (λ i l, Layer_update f ("classifier." +:+ pretty i +:+ ".") l) (classifier self);
     training := training self |}.

(** The named parameters after such a change. *)
Definition apply_named (f : string → Param → Param) (ps : list (string * Param))
    : list (string * Param) :=
  (λ kp, (kp.1, f kp.1 kp.2)) <$> ps.

Definition set_training (mode : bool) (self : CustomClassifier) : CustomClassifier :=
  {| base_model := base_model self; classifier := classifier self; training := mode |}.

(** ** Numeric kernels of the head *)

Definition dot (w x : list Q) : Q :=
  foldr Qplus 0%Q (zip_with Qmult w x).

(** [F.linear(x, W, b)] on the rows of a 2-dimensional input:
    [x @ W.T + b], refused when the last dimension of [x] is not the
    second dimension of [W] or [b] is not of the first one. *)
Definition Linear_forward (self : Linear) (x : list (list Q)) : result (list (list Q)) :=
  let* W := as_matrix (data (weight self)) in
  let* b := as_vector (data (bias self)) in
  traverse
    (λ row,
       if forallb (λ w, Nat.eqb (length w) (length row)) W && Nat.eqb (length b) (length W)
       then Ok (zip_with Qplus ((λ w, dot w row) <$> W) b)
       else Raise RuntimeError)
    x.

(** [torch.argmax(row)]: the position of the first maximal value. *)
Fixpoint argmax_from (best_i : nat) (best : Q) (i : nat) (xs : list Q) : nat :=
  match xs with
  | [] => best_i
  | x :: xs' =>
      if Qle_bool x best then argmax_from best_i best (S i) xs'
      else argmax_from i x (S i) xs'
  end.

Definition argmax (row : list Q) : result Z :=
  match row with
  | [] => Raise IndexError
  | x :: xs => Ok (Z.of_nat (argmax_from 0 x 1 xs))
  end.

(** [torch.sum(predictions == labels).item()] for 1-dimensional
    operands: the number of positions where they agree. An operand of
    length one is broadcast; other shapes are outside of this model. *)
Definition count_equal (xs ys : list Z) : Z :=
  Z.of_nat (length (filter (λ xy, xy.1 = xy.2) (zip xs ys))).

Definition sum_eq (predictions : list Z) (labels : tensor Z) : result Z :=
  let* ls := as_vector labels in
  if Nat.eqb (length predictions) (length ls) then Ok (count_equal predictions ls)
  else match predictions, ls with
       | [p], _ => Ok (count_equal (replicate (length ls) p) ls)
       | _, [l] => Ok (count_equal predictions (replicate (length predictions) l))
       | _, _ => Raise RuntimeError
       end.

(** ** Loaders *)

(** [BatchSampler.__iter__] with [drop_last=False]: indices are
    appended to [batch], a full batch is yielded and a new one started,
    and what is left at the end is yielded when it is not empty. The
    batch size is positive (the constructor of a loader refuses any
    other). *)
Fixpoint BatchSampler (batch_size : nat) (batch : list nat) (sampler : list nat)
    : list (list nat) :=
  match sampler with
  | [] => if Nat.ltb 0 (length batch) then [batch] else []
  | idx :: rest =>
      let batch := batch ++ [idx] in
      if Nat.eqb (length batch) batch_size
      then batch :: BatchSampler batch_size [] rest
      else BatchSampler batch_size batch rest
  end.

(** [default_collate] on a list of dictionaries: for every key of the
    first one, the stack of the values at that key. *)
Definition default_collate (batch : list BatchEncoding) : result BatchEncoding :=
  match batch with
  | [] => Raise IndexError
  | elem :: _ =>
      let* columns :=
        traverse
          (λ key,
             let* values := traverse (λ d : BatchEncoding, dict_getitem d key) batch in
             let* stacked := stack values in
             Ok (key, stacked))
          (elements (dom elem)) in
      Ok (list_to_map columns)
  end.

(** ** The dataset wrapper *)

Record GlueDataset : Type := {
  inputs : list BatchEncoding;
  labels : list Z;
}.

(** [GlueDataset.__len__] *)
Definition GlueDataset_len (self : GlueDataset) : nat :=
  length (inputs self).

(** [GlueDataset.__getitem__] *)
Definition GlueDataset_getitem (self : GlueDataset) (idx : Z) : result BatchEncoding :=
  let* enc := list_getitem (inputs self) idx in
  let item : BatchEncoding := squeeze0 <$> enc in
  let* l := list_getitem (labels self) idx in
  Ok (<["labels" := Scalar l]> item).

Record DataLoader : Type := {
  dataset : GlueDataset;
  batch_size : nat;
  shuffle : bool;
}.

(** [DataLoader(dataset, batch_size=batch_size, shuffle=shuffle)]. With
    [shuffle=True] the constructor builds a [RandomSampler], which
    refuses a dataset without examples; the [BatchSampler] refuses a
    batch size that is not positive. *)
Definition DataLoader_init (dataset : GlueDataset) (batch_size : nat) (shuffle : bool)
    : result DataLoader :=
  if shuffle && Nat.eqb (GlueDataset_len dataset) 0 then Raise ValueError
  else if Nat.eqb batch_size 0 then Raise ValueError
  else Ok {| dataset := dataset; batch_size := batch_size; shuffle := shuffle |}.

(** One pass over a loader whose sampler yields the indices [order]:
    the batches in the order they are yielded, each one fetched (and
    possibly failing) only when the loop reaches it. *)
Definition DataLoader_iter (self : DataLoader) (order : list nat)
    : list (result BatchEncoding) :=
  (λ idxs,
     let* items := traverse (λ i, GlueDataset_getitem (dataset self) (Z.of_nat i)) idxs in
     default_collate items)
  <$> BatchSampler (batch_size self) [] order.

(** ** The state of a run *)

(** The calls into torch that a run makes, in the order it makes them. *)
Inductive event : Type :=
| EvTrainMode
| EvEvalMode
| EvZeroGrad
| EvForward
| EvCrossEntropy
| EvBackward (reached : list string)
| EvStep (updated : list string)
| EvPrintEpoch (n : nat)
| EvPrintAccuracy (avg : Q).

(** [a / b] on Python integers. *)
Definition true_div (a : Z) (b : nat) : result Q :=
  if Nat.eqb b 0 then Raise ZeroDivisionError
  else Ok (inject_Z a / inject_Z (Z.of_nat b))%Q.

(** How [backward] stores a gradient in [.grad]. *)
Definition accumulate (old : option (tensor Q)) (g : tensor Q) : tensor Q :=
  match old with
  | None => g
  | Some o => tensor_add o g
  end.

(** The tensor of a batch or record under a key that it has. *)
Definition field (key : string) (item : BatchEncoding) : tensor Z :=
  default (Scalar 0%Z) (item !! key).

Section Notebook.

(** *** What the notebook calls in the libraries *)

(** [tokenizer s1 s2 n] is the call
    [tokenizer(s1, s2, padding='max_length', truncation=True,
               max_length=n, return_tensors="pt")]. *)
Variable tokenizer : string → string → nat → BatchEncoding.

(** [base_model_call base training rng input_ids attention_mask] is
    [base(input_ids, attention_mask=attention_mask).last_hidden_state],
    in training or evaluation mode, at the state [rng] of the random
    generator. *)
Variable base_model_call :
  PreTrainedModel → bool → nat → tensor Z → tensor Z → result (list (list (list Q))).

(** The random draws: the elements that a dropout layer zeroes, the
    initial weights of a linear layer, the order of a shuffling
    sampler. *)
Variable bernoulli : nat → nat → nat → bool.
Variable init_weight : nat → nat → Q.
Variable init_bias : nat → Q.
Variable randperm : nat → nat → list nat.

(** [cross_entropy logits labels] is
    [torch.nn.functional.cross_entropy(logits, labels)]. *)
Variable cross_entropy : list (list Q) → tensor Z → result Q.

(** [gradient model rng input_ids attention_mask labels name]: the
    derivative of that loss in the parameter [name], as autograd
    computes it from the graph of the forward pass. *)
Variable gradient : CustomClassifier → nat → tensor Z → tensor Z → tensor Z → string → tensor Q.

(** [graph_leaves base training rng input_ids attention_mask]: the
    parameters of the base model, by their names in it, from which that
    call computes the hidden states it returns: the leaves of their
    graph. *)
Variable graph_leaves : PreTrainedModel → bool → nat → tensor Z → tensor Z → list string.

(** The AdamW rule: the optimizer's own state (step count and
    moments), the new value of a parameter from the learning rate, that
    state, the old value and the gradient, and the state after a
    step. *)
Variable AdamWState : Type.
Variable adamw_init : AdamWState.
Variable adamw_update : Q → AdamWState → string → tensor Q → tensor Q → tensor Q.
Variable adamw_next : AdamWState → AdamWState.

(** *** [GlueDataset.__init__] *)

(** The loop appends to two lists that start empty. The tokenizer is
    also stored in [self.tokenizer], which nothing reads afterwards.
    Both calls of the notebook leave [max_length] at its default, 128
    (see [loader_cell]). *)
Definition GlueDataset_init (raw : RawDataset) (max_length : nat) : GlueDataset :=
  fold_left
    (λ self '(s1, s2, l),
       let tokenized_input := tokenizer s1 s2 max_length in
       {| inputs := inputs self ++ [tokenized_input];
          labels := labels self ++ [l] |})
    (zip3 (column sentence1 raw) (column sentence2 raw) (column label raw))
    {| inputs := []; labels := [] |}.

(** *** [CustomClassifier] *)

(** [nn.Linear(in_features, out_features)] *)
Definition Linear_init (n_in n_out : nat) : Linear :=
  {| in_features := n_in;
     out_features := n_out;
     weight := nn_Parameter (matrix ((λ i, init_weight i <$> seq 0 n_in) <$> seq 0 n_out));
     bias := nn_Parameter (vector (init_bias <$> seq 0 n_out)) |}.

(** [nn.Dropout(p)]: the identity in evaluation mode; in training mode
    the drawn elements become zero and the others are scaled by
    [1 / (1 - p)]. *)
Definition Dropout_forward (p : Q) (training : bool) (rng : nat) (x : list (list Q))
    : list (list Q) :=
  if training
  then imap (λ i row, imap (λ j v, if bernoulli rng i j then 0%Q else (v / (1 - p))%Q) row) x
  else x.

Definition Layer_forward (training : bool) (rng : nat) (x : list (list Q)) (layer : Layer)
    : result (list (list Q)) :=
  match layer with
  | Dropout p => Ok (Dropout_forward p training rng x)
  | LinearLayer l => Linear_forward l x
  end.

(** [nn.Sequential.forward]: the layers one after the other. *)
Definition Sequential_forward (layers : list Layer) (training : bool) (rng : nat)
    (x : list (list Q)) : result (list (list Q)) :=
  for_each (Layer_forward training rng) layers x.

(** [CustomClassifier.__init__]; a new module is in training mode. *)
Definition CustomClassifier_init (base : PreTrainedModel) (num_labels : nat) : CustomClassifier :=
  {| base_model := base;
     classifier :=
       [Dropout (1 # 10); LinearLayer (Linear_init (config_hidden_size base) num_labels)];
     training := true |}.

(** [CustomClassifier.forward] *)
Definition CustomClassifier_forward (self : CustomClassifier) (rng : nat)
    (input_ids attention_mask : tensor Z) : result (list (list Q)) :=
  let* outputs :=
    base_model_call (base_model self) (training self) rng input_ids attention_mask in
  let last_hidden_state := outputs in
  let* cls_token_state := traverse (λ hidden, list_getitem hidden 0) last_hidden_state in
  let* logits := Sequential_forward (classifier self) (training self) rng cls_token_state in
  Ok logits.

(** The leaves of the graph of the logits of that call. The hidden
    states go from the base model into the head as they are, neither
    detached nor computed under [torch.no_grad()], so the graph of the
    logits holds the leaves of the base model and those of the head. *)
Definition forward_graph (self : CustomClassifier) (rng : nat)
    (input_ids attention_mask : tensor Z) : list string :=
  ((λ k, "base_model." +:+ k) <$>
     graph_leaves (base_model self) (training self) rng input_ids attention_mask) ++
  ((λ k, "classifier." +:+ k) <$> Sequential_graph (classifier self)).

(** *** The optimizer and the state of the run *)

(** [AdamW(params, lr)]: the optimizer holds the parameter objects of
    the module, here by their qualified names. *)
Record Optimizer : Type := {
  param_group : list string;
  lr : Q;
  moments : AdamWState;
}.

Definition AdamW (params : list (string * Param)) (lr : Q) : Optimizer :=
  {| param_group := params.*1; lr := lr; moments := adamw_init |}.

Record state : Type := {
  model : CustomClassifier;
  optimizer : Optimizer;
  rng : nat;
  log : list event;
  files : gmap string StateDict;
}.

Definition set_model (m : CustomClassifier) (st : state) : state :=
  {| model := m; optimizer := optimizer st; rng := rng st; log := log st; files := files st |}.

Definition set_rng (r : nat) (st : state) : state :=
  {| model := model st; optimizer := optimizer st; rng := r; log := log st; files := files st |}.

Definition emit (ev : event) (st : state) : state :=
  {| model := model st; optimizer := optimizer st; rng := rng st;
     log := log st ++ [ev]; files := files st |}.

(** [model.train()] and [model.eval()] *)
Definition model_train (st : state) : state :=
  emit EvTrainMode (set_model (set_training true (model st)) st).

Definition model_eval (st : state) : state :=
  emit EvEvalMode (set_model (set_training false (model st)) st).

(** [optimizer.zero_grad()] *)
Definition zero_grad (st : state) : state :=
  let group := param_group (optimizer st) in
  emit EvZeroGrad
    (set_model
       (update_parameters
          (λ name p, if bool_decide (name ∈ group) then set_grad None p else p)
          (model st))
       st).

(** [model(input_ids, attention_mask)]; a forward pass in training mode
    draws from the random generator. *)
Definition model_call (st : state) (input_ids attention_mask : tensor Z)
    : result (state * list (list Q)) :=
  let* logits := CustomClassifier_forward (model st) (rng st) input_ids attention_mask in
  Ok (emit EvForward (set_rng (if training (model st) then S (rng st) else rng st) st),
      logits).

(** [loss.backward()] for a loss whose graph has the leaves [graph] and
    whose derivatives are [g]: a parameter receives a gradient when it
    is a leaf of the graph and requires one; the others are not
    touched. When no parameter is reached, the loss has no [grad_fn]
    and the call raises [RuntimeError]. *)
Definition reached_by_backward (graph : list string) (m : CustomClassifier) : list string :=
  (filter (λ kp, requires_grad kp.2 = true ∧ kp.1 ∈ graph) (named_parameters m)).*1.

Definition backward (graph : list string) (g : string → tensor Q) (st : state)
    : result state :=
  match reached_by_backward graph (model st) with
  | [] => Raise RuntimeError
  | reached =>
      Ok (emit (EvBackward reached)
            (set_model
               (update_parameters
                  (λ name p,
                     if requires_grad p && bool_decide (name ∈ graph)
                     then set_grad (Some (accumulate (grad p) (g name))) p
                     else p)
                  (model st))
               st))
  end.

(** [optimizer.step()]: every parameter of the group that has a
    gradient is updated in place. *)
Definition updated_by_step (group : list string) (m : CustomClassifier) : list string :=
  (filter (λ kp, kp.1 ∈ group ∧ is_Some (grad kp.2)) (named_parameters m)).*1.

Definition step (st : state) : state :=
  let opt := optimizer st in
  let m :=
    update_parameters
      (λ name p,
         if bool_decide (name ∈ param_group opt) then
           match grad p with
           | Some g => set_data (adamw_update (lr opt) (moments opt) name (data p) g) p
           | None => p
           end
         else p)
      (model st) in
  {| model := m;
     optimizer :=
       {| param_group := param_group opt; lr := lr opt; moments := adamw_next (moments opt) |};
     rng := rng st;
     log := log st ++ [EvStep (updated_by_step (param_group opt) (model st))];
     files := files st |}.

(** [iter(loader)] and the first [next]: every iterator of a loader
    draws its base seed from the random generator; a shuffling loader
    then draws the seed of its order, the other one goes through
    [range(len(dataset))] and draws nothing more. *)
Definition DataLoader_start (st : state) (loader : DataLoader)
    : state * list (result BatchEncoding) :=
  let n := GlueDataset_len (dataset loader) in
  let st := set_rng (S (rng st)) st in
  if shuffle loader
  then (set_rng (S (rng st)) st, DataLoader_iter loader (randperm (rng st) n))
  else (st, DataLoader_iter loader (seq 0 n)).

(** *** The training cell *)

(** The body of the inner loop. *)
Definition train_batch (st : state) (batch : BatchEncoding) : result state :=
  let st := zero_grad st in
  let* input_ids := dict_getitem batch "input_ids" in
  let* attention_mask := dict_getitem batch "attention_mask" in
  let* labels := dict_getitem batch "labels" in
  let forward_model := model st in
  let forward_rng := rng st in
  let* '(st, logits) := model_call st input_ids attention_mask in
  let* loss := cross_entropy logits labels in
  let st := emit EvCrossEntropy st in
  let* st :=
    backward (forward_graph forward_model forward_rng input_ids attention_mask)
      (gradient forward_model forward_rng input_ids attention_mask labels) st in
  let st := step st in
  Ok st.

Definition num_epochs : nat := 3.

Definition train_epoch (train_loader : DataLoader) (st : state) (epoch : nat) : result state :=
  let st := model_train st in
  let '(st, batches) := DataLoader_start st train_loader in
  let* st := for_each (λ st fetched, let* batch := fetched in train_batch st batch) batches st in
  Ok (emit (EvPrintEpoch (epoch + 1)) st).

Definition training_cell (train_loader : DataLoader) (st : state) : result state :=
  for_each (train_epoch train_loader) (seq 0 num_epochs) st.

(** *** The evaluation cell *)

(** The body of the loop, under [torch.no_grad()]. *)
Definition eval_batch (acc : state * Z) (batch : BatchEncoding) : result (state * Z) :=
  let '(st, total_eval_accuracy) := acc in
  let* input_ids := dict_getitem batch "input_ids" in
  let* attention_mask := dict_getitem batch "attention_mask" in
  let* labels := dict_getitem batch "labels" in
  let* '(st, logits) := model_call st input_ids attention_mask in
  let* predictions := traverse argmax logits in
  let* correct := sum_eq predictions labels in
  Ok (st, (total_eval_accuracy + correct)%Z).

Definition evaluation_cell (eval_loader : DataLoader) (st : state) : result (state * Q) :=
  let st := model_eval st in
  let total_eval_accuracy := 0%Z in
  let '(st, batches) := DataLoader_start st eval_loader in
  let* '(st, total_eval_accuracy) :=
    for_each (λ acc fetched, let* batch := fetched in eval_batch acc batch)
      batches (st, total_eval_accuracy) in
  let* avg_accuracy :=
    true_div total_eval_accuracy (GlueDataset_len (dataset eval_loader)) in
  Ok (emit (EvPrintAccuracy avg_accuracy) st, avg_accuracy).

(** *** The last cell *)

(** [torch.save(model.state_dict(), "./my_custom_model_falcon.pt")] *)
Definition save_cell (st : state) : state :=
  {| model := model st; optimizer := optimizer st; rng := rng st; log := log st;
     files := <["./my_custom_model_falcon.pt" := state_dict (model st)]> (files st) |}.

(** *** The notebook, from the loaded base model and dataset on *)

Definition num_labels : nat := 2.

(** The cells that build the module, move it to the device and build
    the optimizer. *)
Definition setup_cell (base : PreTrainedModel) (seed : nat) : state :=
  let model := CustomClassifier_init base num_labels in
  let optimizer := AdamW (named_parameters model) (5 # 100000) in
  {| model := model; optimizer := optimizer; rng := seed; log := []; files := ∅ |}.

(** The cells that wrap a split of the dataset and build its loader. *)
Definition loader_cell (raw : RawDataset) (shuffle : bool) : result DataLoader :=
  DataLoader_init (GlueDataset_init raw 128) 8 shuffle.

Definition notebook (base : PreTrainedModel) (train validation : RawDataset) (seed : nat)
    : result (state * Q) :=
  let* train_loader := loader_cell train true in
  let* eval_loader := loader_cell validation false in
  let st := setup_cell base seed in
  let* st := training_cell train_loader st in
  let* '(st, avg_accuracy) := evaluation_cell eval_loader st in
  Ok (save_cell st, avg_accuracy).

(** *** Contracts of the libraries

    What the proofs below assume of the calls into the libraries; each
    is a hypothesis of the theorems that use it. *)

Definition tokenize (max_length : nat) (ex : example) : BatchEncoding :=
  tokenizer (sentence1 ex) (sentence2 ex) max_length.

(** [padding='max_length'] with [truncation=True] and
    [return_tensors="pt"] at length [n]: the ids and the mask come back
    as tensors of shape [[1, n]]. *)
Definition tokenizer_pads_to (n : nat) : Prop :=
  ∀ s1 s2, ∃ ids mask,
    tokenizer s1 s2 n !! "input_ids" = Some ids ∧
    has_shape [1; n] ids = true ∧
    tokenizer s1 s2 n !! "attention_mask" = Some mask ∧
    has_shape [1; n] mask = true.

(** The same, for a tokenizer whose model inputs are the ids and the
    mask and nothing else (as the Falcon tokenizer's are). *)
Definition tokenizer_two_fields (n : nat) : Prop :=
  ∀ s1 s2, ∃ ids mask,
    tokenizer s1 s2 n = {[ "input_ids" := ids; "attention_mask" := mask ]} ∧
    has_shape [1; n] ids = true ∧
    has_shape [1; n] mask = true.

(** The encoder maps ids and a mask of shape [[B, L]], [L] positive,
    to hidden states of shape [[B, L, hidden_size]]. *)
Definition hidden_states (B L H : nat) (h : list (list (list Q))) : Prop :=
  length h = B ∧ Forall (λ hidden, length hidden = L ∧ Forall (λ v, length v = H) hidden) h.

Definition base_model_shapes : Prop :=
  ∀ base training rng input_ids attention_mask B L,
    has_shape [B; L] input_ids = true →
    has_shape [B; L] attention_mask = true →
    0 < L →
    ∃ h, base_model_call base training rng input_ids attention_mask = Ok h ∧
         hidden_states B L (config_hidden_size base) h.

(** The loss is defined on [B] rows of [C] logits and [B] class
    indices below [C]. *)
Definition cross_entropy_defined : Prop :=
  ∀ logits labels ls C,
    Forall (λ row, length row = C) logits →
    as_vector labels = Ok ls →
    length ls = length logits →
    Forall (λ l, (0 ≤ l < Z.of_nat C)%Z) ls →
    is_ok (cross_entropy logits labels) = true.

(** An update keeps the shape of the parameter. *)
Definition adamw_keeps_shape : Prop :=
  ∀ lr o name d g s, has_shape s d = true → has_shape s (adamw_update lr o name d g) = true.

(** A shuffled order is a permutation of [range(n)]. *)
Definition randperm_permutes : Prop :=
  ∀ rng n, randperm rng n ≡ₚ seq 0 n.

(** The encoder computes its hidden states from every parameter it
    has: each one is a leaf of their graph. *)
Definition encoder_reads_every_parameter : Prop :=
  ∀ base training rng input_ids attention_mask name,
    name ∈ (base_parameters base).*1 →
    name ∈ graph_leaves base training rng input_ids attention_mask.

(** *** Shapes of the module *)

Definition Linear_shaped (n_in n_out : nat) (l : Linear) : bool :=
  has_shape [n_out; n_in] (data (weight l)) && has_shape [n_out] (data (bias l)).

(** The structure that [CustomClassifier.__init__] builds for
    [n_labels] labels: a dropout layer, then a linear layer from the
    hidden size of the base model to [n_labels]. *)
Definition classifier_for (n_labels : nat) (self : CustomClassifier) : Prop :=
  ∃ p l, classifier self = [Dropout p; LinearLayer l] ∧
         Linear_shaped (config_hidden_size (base_model self)) n_labels l = true.

(** *** The forward pass and the predictions, in the words of the
    specification *)

(** The hidden state at the first sequence position of every example. *)
Definition first_token (h : list (list (list Q))) : result (list (list Q)) :=
  traverse (λ hidden, match hidden with v :: _ => Ok v | [] => Raise IndexError end) h.

(** Encoder, first-token pooling, dropout in training mode only, one
    linear map. *)
Definition forward_as_specified (base : PreTrainedModel) (p : Q) (l : Linear) (training : bool)
    (rng : nat) (input_ids attention_mask : tensor Z) : result (list (list Q)) :=
  let* h := base_model_call base training rng input_ids attention_mask in
  let* pooled := first_token h in
  let dropped := if training then Dropout_forward p true rng pooled else pooled in
  Linear_forward l dropped.

(** *** The training loop, in the words of the specification *)

(** One batch: the accumulated gradients are cleared; the logits come
    from the wrapper and the loss is their cross-entropy against the
    true labels; its gradients are propagated to every parameter of the
    module, of the base model as of the head; one optimizer step is
    applied to them. *)
Definition batch_as_specified (st : state) (batch : BatchEncoding) : state :=
  let input_ids := field "input_ids" batch in
  let attention_mask := field "attention_mask" batch in
  let labels := field "labels" batch in
  let names := (named_parameters (model st)).*1 in
  let cleared := update_parameters (λ _ p, set_grad None p) (model st) in
  let g := gradient cleared (rng st) input_ids attention_mask labels in
  let opt := optimizer st in
  {| model :=
       update_parameters
         (λ name p,
            set_data (adamw_update (lr opt) (moments opt) name (data p) (g name))
              (set_grad (Some (g name)) p))
         (model st);
     optimizer :=
       {| param_group := param_group opt; lr := lr opt; moments := adamw_next (moments opt) |};
     rng := S (rng st);
     log := log st ++ [EvZeroGrad; EvForward; EvCrossEntropy; EvBackward names; EvStep names];
     files := files st |}.

(** One epoch: training mode, every batch of the loader in the order
    it yields them, then the message. A batch that cannot be fetched
    has no part in the specification and is passed over; the loaders of
    the theorem below yield none. *)
Definition epoch_as_specified (train_loader : DataLoader) (st : state) (epoch : nat) : state :=
  let '(st, batches) := DataLoader_start (model_train st) train_loader in
  let st :=
    foldl
      (λ st fetched,
         match fetched with
         | Ok batch => batch_as_specified st batch
         | Raise _ => st
         end)
      st batches in
  emit (EvPrintEpoch (epoch + 1)) st.

(** A fixed count of three epochs. *)
Definition training_as_specified (train_loader : DataLoader) (st : state) : state :=
  foldl (epoch_as_specified train_loader) st [0; 1; 2].

(** The arg-max label of every example of a loader that does not
    shuffle, in the order of the dataset, from forward passes in
    evaluation mode. *)
Definition predict_batch (m : CustomClassifier) (rng : nat) (batch : BatchEncoding)
    : result (list Z) :=
  let* input_ids := dict_getitem batch "input_ids" in
  let* attention_mask := dict_getitem batch "attention_mask" in
  let* logits := CustomClassifier_forward (set_training false m) rng input_ids attention_mask in
  traverse argmax logits.

Definition predicted_labels (m : CustomClassifier) (rng : nat) (loader : DataLoader)
    : result (list Z) :=
  let* per_batch :=
    traverse (λ fetched, let* batch := fetched in predict_batch m rng batch)
      (DataLoader_iter loader (seq 0 (GlueDataset_len (dataset loader)))) in
  Ok (concat per_batch).

End Notebook.

Arguments param_group {_} _.
Arguments lr {_} _.
Arguments moments {_} _.
Arguments model {_} _.
Arguments optimizer {_} _.
Arguments rng {_} _.
Arguments log {_} _.
Arguments files {_} _.
Arguments set_model {_} _ _.
Arguments set_rng {_} _ _.
Arguments emit {_} _ _.
Arguments model_train {_} _.
Arguments model_eval {_} _.
Arguments zero_grad {_} _.
Arguments backward {_} _ _ _.
Arguments step {_} _ _ _.
Arguments save_cell {_} _.
Arguments model_call _ _ {_} _ _ _.
Arguments DataLoader_start _ {_} _ _.
Arguments train_batch _ _ _ _ _ {_} _ _ _ _.
Arguments train_epoch _ _ _ _ _ _ {_} _ _ _ _ _.
Arguments training_cell _ _ _ _ _ _ {_} _ _ _ _.
Arguments batch_as_specified _ {_} _ _ _ _.
Arguments epoch_as_specified _ _ {_} _ _ _ _ _.
Arguments training_as_specified _ _ {_} _ _ _ _.
Arguments eval_batch _ _ {_} _ _.
Arguments evaluation_cell _ _ _ {_} _ _.
Arguments notebook _ _ _ _ _ _ _ _ _ {_} _ _ _ _ _ _ _.
Arguments setup_cell _ _ {_} _ _ _.
Arguments adamw_keeps_shape {_} _.

(** ** The calls of the training cell *)

(** The calls for one batch, when backward reaches and the step updates
    the parameters [names]. *)
Definition batch_events (names : list string) : list event :=
  [EvZeroGrad; EvForward; EvCrossEntropy; EvBackward names; EvStep names].

(** The calls for epoch number [epoch] (from 0) over [batches] batches. *)
Definition epoch_events (names : list string) (batches epoch : nat) : list event :=
  EvTrainMode :: concat (replicate batches (batch_events names)) ++ [EvPrintEpoch (epoch + 1)].

(** A state in which a batch can be trained on: the head has the shape
    for [n_labels] labels, the parameters of the module are [names],
    the optimizer holds all of them, and none is frozen. *)
Definition ready_to_train {O} (names : list string) (n_labels : nat) (st : state O) : Prop :=
  classifier_for n_labels (model st) ∧
  (named_parameters (model st)).*1 = names ∧
  param_group (optimizer st) = names ∧
  Forall (λ kp, requires_grad kp.2 = true) (named_parameters (model st)).

(** The entries of the head in the state dictionary of the module. *)
Definition head_state_dict (m : CustomClassifier) : StateDict :=
  with_prefix "classifier." (Sequential_state_dict (classifier m)).

(** ** Well-formed records and batches *)

(** A record of the wrapper with its three fields: ids and a mask of
    length [n], and a label. *)
Definition item_fields (n : nat) (l : Z) (item : BatchEncoding) : Prop :=
  ∃ ids mask,
    item = <["labels" := Scalar l]>
             {[ "input_ids" := vector ids; "attention_mask" := vector mask ]} ∧
    length ids = n ∧ length mask = n.

(** A batch of such records: the stacked ids and masks, and the vector
    of the labels. *)
Definition batch_fields (n : nat) (ls : list Z) (batch : BatchEncoding) : Prop :=
  ∃ idss masks,
    batch !! "input_ids" = Some (matrix idss) ∧
    batch !! "attention_mask" = Some (matrix masks) ∧
    batch !! "labels" = Some (vector ls) ∧
    length idss = length ls ∧ Forall (λ ids, length ids = n) idss ∧
    length masks = length ls ∧ Forall (λ mask, length mask = n) masks.

(** The label of the record at position [i] of the raw dataset. *)
Definition label_at (raw : RawDataset) (i : nat) : Z :=
  default 0%Z (label <$> raw !! i).

(** ** The download cell of the access notebook

    The third way of [Accessing Falcon]: a streamed GET whose chunks
    are written to a local file. The file system is a dictionary from
    paths to contents. *)

Abbreviation FileSystem := (gmap string (list Byte.byte)).

(** [open(path, 'wb')]: the file is created, or emptied when it is
    there already. *)
Definition open_wb (path : string) (fs : FileSystem) : FileSystem :=
  <[path := []]> fs.

(** [f.write(chunk)] on the file opened at [path]. *)
Definition file_write (path : string) (chunk : list Byte.byte) (fs : FileSystem) : FileSystem :=
  alter (λ content, content ++ chunk) path fs.

Definition model_path : string := "./modeling_falcon.py".

(** The [with] block, for the chunks that
    [response.iter_content(chunk_size=10000)] yields: a chunk is written
    when it is truthy, that is, not empty. *)
Definition download (chunks : list (list Byte.byte)) (fs : FileSystem) : FileSystem :=
  let fs := open_wb model_path fs in
  foldl
    (λ fs chunk, match chunk with [] => fs | _ :: _ => file_write model_path chunk fs end)
    fs chunks.

(** ** Small stand-ins for the libraries

    Concrete instances of what the section above leaves open, used to
    run the definitions on examples: a character-level tokenizer that
    truncates and pads, an encoder that embeds a token as a constant
    vector, a descent rule that only decays the weights. *)
Module Toy.

Definition codes (s : string) : list Z :=
  (λ c, Z.of_nat (Ascii.nat_of_ascii c)) <$> String.list_ascii_of_string s.

Definition pad_to {A} (n : nat) (pad : A) (xs : list A) : list A :=
  take n xs ++ replicate (n - length xs) pad.

Definition tokenizer (s1 s2 : string) (n : nat) : BatchEncoding :=
  let ids := codes s1 ++ codes s2 in
  {[ "input_ids" := matrix [pad_to n 0%Z ids];
     "attention_mask" := matrix [pad_to n 0%Z ((λ _, 1%Z) <$> ids)] ]}.

Definition base_model_call (base : PreTrainedModel) (training : bool) (rng : nat)
    (input_ids attention_mask : tensor Z) : result (list (list (list Q))) :=
  let* ids := as_matrix input_ids in
  Ok ((λ row : list Z,
         (λ id, replicate (config_hidden_size base) (inject_Z id)) <$> row) <$> ids).

Definition bernoulli (rng i j : nat) : bool := Nat.even (rng + i + j).
Definition init_weight (i j : nat) : Q := inject_Z (Z.of_nat i - Z.of_nat j).
Definition init_bias (i : nat) : Q := inject_Z (Z.of_nat i).
Definition randperm (rng n : nat) : list nat := rev (seq 0 n).

Definition cross_entropy (logits : list (list Q)) (labels : tensor Z) : result Q :=
  Ok (inject_Z (Z.of_nat (length logits))).

Definition gradient (m : CustomClassifier) (rng : nat) (input_ids attention_mask labels : tensor Z)
    (name : string) : tensor Q :=
  Scalar 1%Q.

Fixpoint tensor_map {A B} (f : A → B) (t : tensor A) : tensor B :=
  match t with
  | Scalar a => Scalar (f a)
  | Dim ts => Dim (map (tensor_map f) ts)
  end.

Definition adamw_update (lr : Q) (steps : nat) (name : string) (d g : tensor Q) : tensor Q :=
  tensor_map (λ x, x * (1 - lr))%Q d.

Definition adamw_next (steps : nat) : nat := S steps.

(** An encoder that reads its parameters: the hidden state of a token
    is its id times the sum of all entries of all parameters, in every
    component, so that all parameters are leaves of the graph
    ([embedding_leaves]). The encoder [base_model_call] above reads no
    parameter: the graph of its result has no leaf ([no_leaves]). *)
Fixpoint tensor_sum (t : tensor Q) : Q :=
  match t with
  | Scalar a => a
  | Dim ts => fold_right (λ t acc, tensor_sum t + acc)%Q 0%Q ts
  end.

Definition embedding_call (base : PreTrainedModel) (training : bool) (rng : nat)
    (input_ids attention_mask : tensor Z) : result (list (list (list Q))) :=
  let scale := fold_right (λ kp acc, tensor_sum (data kp.2) + acc)%Q 0%Q (base_parameters base) in
  let* ids := as_matrix input_ids in
  Ok ((λ row : list Z,
         (λ id, replicate (config_hidden_size base) (inject_Z id * scale)%Q) <$> row) <$> ids).

Definition embedding_leaves (base : PreTrainedModel) (training : bool) (rng : nat)
    (input_ids attention_mask : tensor Z) : list string :=
  (base_parameters base).*1.

Definition no_leaves (base : PreTrainedModel) (training : bool) (rng : nat)
    (input_ids attention_mask : tensor Z) : list string :=
  [].

(** An encoder whose hidden states have one component, whatever the
    configuration says. *)
Definition narrow_base_model_call (base : PreTrainedModel) (training : bool) (rng : nat)
    (input_ids attention_mask : tensor Z) : result (list (list (list Q))) :=
  let* ids := as_matrix input_ids in
  Ok ((λ row : list Z, (λ id, [inject_Z id]) <$> row) <$> ids).

(** A batch of one example of two tokens. *)
Definition batch : BatchEncoding :=
  {[ "input_ids" := matrix [[104; 105]]%Z;
     "attention_mask" := matrix [[1; 1]]%Z;
     "labels" := vector [1]%Z ]}.

Definition base : PreTrainedModel :=
  {| config_hidden_size := 3;
     base_parameters := [("word_embeddings.weight", nn_Parameter (matrix [[1%Q; 2%Q]]))] |}.

Definition mrpc : RawDataset :=
  [ {| sentence1 := "a b"; sentence2 := "a b c"; label := 1 |};
    {| sentence1 := "x"; sentence2 := "y z"; label := 0 |};
    {| sentence1 := "the cat sat on the mat"; sentence2 := "a cat sat"; label := 1 |} ].

(** The state after the setup cells, and the whole run, on these
    stand-ins. *)
Definition start : state nat := setup_cell init_weight init_bias 0 base 7.

Definition run : result (state nat * Q) :=
  notebook tokenizer base_model_call bernoulli init_weight init_bias randperm
    cross_entropy gradient no_leaves 0 adamw_update adamw_next base mrpc mrpc 7.

End Toy.

(** * Properties *)

(** ** The definitions on small inputs *)

Example list_getitem_last : list_getitem [10; 20; 30]%Z (-1) = Ok 30%Z.
Proof. reflexivity. Qed.

Example list_getitem_past_the_end : list_getitem [10; 20; 30]%Z 3 = Raise IndexError.
Proof. reflexivity. Qed.

Example list_getitem_before_the_start : list_getitem [10; 20; 30]%Z (-4) = Raise IndexError.
Proof. reflexivity. Qed.

Example squeeze0_one_row : squeeze0 (matrix [[1; 2; 3]]%Z) = vector [1; 2; 3]%Z.
Proof. reflexivity. Qed.

Example squeeze0_two_rows : squeeze0 (matrix [[1]; [2]]%Z) = matrix [[1]; [2]]%Z.
Proof. reflexivity. Qed.

Example BatchSampler_three_by_two : BatchSampler 2 [] [0; 1; 2] = [[0; 1]; [2]].
Proof. reflexivity. Qed.

Example argmax_first_of_ties : argmax [1; 3; 3]%Q = Ok 1%Z.
Proof. reflexivity. Qed.

Example sum_eq_two_of_three : sum_eq [1; 0; 1]%Z (vector [1; 1; 1]%Z) = Ok 2%Z.
Proof. reflexivity. Qed.

Example DataLoader_init_empty_shuffle :
  DataLoader_init {| inputs := []; labels := [] |} 8 true = Raise ValueError.
Proof. reflexivity. Qed.

Example DataLoader_init_empty_sequential :
  DataLoader_init {| inputs := []; labels := [] |} 8 false =
  Ok {| dataset := {| inputs := []; labels := [] |}; batch_size := 8; shuffle := false |}.
Proof. reflexivity. Qed.

Example toy_item :
  GlueDataset_getitem (GlueDataset_init Toy.tokenizer Toy.mrpc 6) 1 =
  Ok {[ "input_ids" := vector [120; 121; 32; 122; 0; 0]%Z;
        "attention_mask" := vector [1; 1; 1; 1; 0; 0]%Z;
        "labels" := Scalar 0%Z ]}.
Proof. vm_compute. reflexivity. Qed.

Example toy_item_truncated :
  GlueDataset_getitem (GlueDataset_init Toy.tokenizer Toy.mrpc 2) 1 =
  Ok {[ "input_ids" := vector [120; 121]%Z;
        "attention_mask" := vector [1; 1]%Z;
        "labels" := Scalar 0%Z ]}.
Proof. vm_compute. reflexivity. Qed.

(** After one batch with an encoder that reads none of its parameters,
    the parameter of the base model has no gradient, those of the head
    have one. *)
Example toy_batch_gradients :
  match
    train_batch Toy.base_model_call Toy.bernoulli Toy.cross_entropy Toy.gradient
      Toy.no_leaves Toy.adamw_update Toy.adamw_next Toy.start Toy.batch
  with
  | Ok st' => Some ((λ kp, (kp.1, grad kp.2)) <$> named_parameters (model st'))
  | Raise _ => None
  end
  = Some [("base_model.word_embeddings.weight", None);
          ("classifier.1.weight", Some (Scalar 1%Q));
          ("classifier.1.bias", Some (Scalar 1%Q))].
Proof. vm_compute. reflexivity. Qed.

(** With an encoder that reads them, all three have one. *)
Example toy_batch_gradients_whole :
  match
    train_batch Toy.embedding_call Toy.bernoulli Toy.cross_entropy Toy.gradient
      Toy.embedding_leaves Toy.adamw_update Toy.adamw_next Toy.start Toy.batch
  with
  | Ok st' => Some ((λ kp, (kp.1, grad kp.2)) <$> named_parameters (model st'))
  | Raise _ => None
  end
  = Some [("base_model.word_embeddings.weight", Some (Scalar 1%Q));
          ("classifier.1.weight", Some (Scalar 1%Q));
          ("classifier.1.bias", Some (Scalar 1%Q))].
Proof. vm_compute. reflexivity. Qed.

Example toy_run_accuracy :
  match Toy.run with Ok (_, avg_accuracy) => Some avg_accuracy | Raise _ => None end
  = Some (2 # 3)%Q.
Proof. vm_compute. reflexivity. Qed.

Example toy_run_saved_names :
  match Toy.run with
  | Ok (st, _) => fmap (M := option) (fmap fst) (files st !! "./my_custom_model_falcon.pt")
  | Raise _ => None
  end
  = Some ["base_model.word_embeddings.weight"; "classifier.1.weight"; "classifier.1.bias"].
Proof. vm_compute. reflexivity. Qed.


(** ** Python sequences *)

Lemma bind_ok {A B} (m : result A) (k : A → result B) (b : B) :
  bind m k = Ok b → ∃ a, m = Ok a ∧ k a = Ok b.
Proof. destruct m as [a|e]; simpl; intros H; [eauto | discriminate]. Qed.

(** Case analysis on the comparisons of [list_getitem]. *)
Ltac getitem_cases :=
  unfold list_getitem; cbv zeta;
  repeat match goal with
    | |- context [(?a <? ?b)%Z] =>
        lazymatch a with
        | context [Z.ltb] => fail
        | _ => destruct (Z.ltb_spec a b); simpl
        end
    | |- context [(?a <=? ?b)%Z] => destruct (Z.leb_spec a b); simpl
    end;
  try lia.

Lemma list_getitem_nat {A} (l : list A) (i : nat) (a : A) :
  l !! i = Some a → list_getitem l (Z.of_nat i) = Ok a.
Proof.
  intros Hi. pose proof (lookup_lt_Some _ _ _ Hi) as Hlt.
  getitem_cases. by rewrite Nat2Z.id, Hi.
Qed.

Lemma list_getitem_ge {A} (l : list A) (idx : Z) :
  (Z.of_nat (length l) ≤ idx)%Z → list_getitem l idx = Raise IndexError.
Proof. intros Hge. getitem_cases; done. Qed.

Lemma list_getitem_negative {A} (l : list A) (idx : Z) :
  (- Z.of_nat (length l) ≤ idx < 0)%Z →
  list_getitem l idx = list_getitem l (Z.of_nat (length l) + idx).
Proof.
  intros [Hlo Hhi]. getitem_cases. by rewrite (Z.add_comm idx).
Qed.

Lemma zip3_columns {A B C} (f : example → A) (g : example → B) (h : example → C)
    (raw : RawDataset) :
  zip3 (column f raw) (column g raw) (column h raw) = (λ ex, (f ex, g ex, h ex)) <$> raw.
Proof. induction raw as [|ex raw IH]; simpl; [done | by f_equal]. Qed.

(** ** Fallible loops *)

Lemma traverse_Forall2 {A B} (f : A → result B) (xs : list A) (ys : list B) :
  traverse f xs = Ok ys ↔ Forall2 (λ x y, f x = Ok y) xs ys.
Proof.
  revert ys. induction xs as [|x xs IH]; intros ys; simpl.
  - split; [intros [= <-]; constructor | by inversion 1].
  - split.
    + intros H. apply bind_ok in H as (y & Hy & H).
      apply bind_ok in H as (ys' & Hys & [= <-]).
      constructor; [done | by apply IH].
    + inversion 1 as [|? y ? ys' Hy Hys]; subst.
      rewrite Hy. simpl. apply IH in Hys. by rewrite Hys.
Qed.

Lemma traverse_length {A B} (f : A → result B) (xs : list A) (ys : list B) :
  traverse f xs = Ok ys → length ys = length xs.
Proof. intros H. apply traverse_Forall2 in H. symmetry. by eapply Forall2_length. Qed.

Lemma traverse_total {A B} (f : A → result B) (g : A → B) (xs : list A) :
  Forall (λ x, f x = Ok (g x)) xs → traverse f xs = Ok (g <$> xs).
Proof.
  induction 1 as [|x xs Hx _ IH]; simpl; [done|]. by rewrite Hx, IH.
Qed.

Lemma traverse_ext {A B} (f g : A → result B) (xs : list A) :
  Forall (λ x, f x = g x) xs → traverse f xs = traverse g xs.
Proof.
  induction 1 as [|x xs Hx _ IH]; simpl; [done|]. by rewrite Hx, IH.
Qed.

(** ** Tensors *)

Lemma has_shape_vector {A} (n : nat) (t : tensor A) :
  has_shape [n] t = true ↔ ∃ xs, t = vector xs ∧ length xs = n.
Proof.
  split.
  - destruct t as [a|ts]; simpl; [discriminate|].
    intros [Hlen Hall]%andb_true_iff. apply Nat.eqb_eq in Hlen.
    assert (∃ xs, ts = Scalar <$> xs) as [xs ->].
    { clear Hlen. induction ts as [|t ts IH]; [by exists []|].
      simpl in Hall. apply andb_true_iff in Hall as [Ht Hall].
      destruct (IH Hall) as [xs ->]. destruct t as [a|]; [|discriminate].
      by exists (a :: xs). }
    exists xs. split; [done|]. by rewrite length_fmap in Hlen.
  - intros (xs & -> & <-). simpl. rewrite length_fmap, Nat.eqb_refl. simpl.
    induction xs as [|x xs IH]; simpl; done.
Qed.

Lemma has_shape_matrix {A} (m n : nat) (t : tensor A) :
  has_shape [m; n] t = true ↔
  ∃ xss, t = matrix xss ∧ length xss = m ∧ Forall (λ xs, length xs = n) xss.
Proof.
  split.
  - destruct t as [a|ts]; [discriminate|].
    change (has_shape [m; n] (Dim ts)) with
      (Nat.eqb (length ts) m && forallb (has_shape [n]) ts).
    intros [Hlen Hall]%andb_true_iff. apply Nat.eqb_eq in Hlen.
    assert (∃ xss, ts = vector <$> xss ∧ Forall (λ xs, length xs = n) xss)
      as (xss & -> & Hxss).
    { clear Hlen. induction ts as [|t ts IH]; [by exists []|].
      simpl in Hall. apply andb_true_iff in Hall as [Ht Hall].
      destruct (IH Hall) as (xss & -> & Hxss).
      apply (has_shape_vector n t) in Ht as (xs & -> & Hxs).
      exists (xs :: xss). split; [done | by constructor]. }
    exists xss. split; [done|]. split; [by rewrite length_fmap in Hlen | done].
  - intros (xss & -> & <- & Hall).
    change (has_shape [length xss; n] (matrix xss)) with
      (Nat.eqb (length (vector <$> xss)) (length xss) &&
       forallb (has_shape [n]) (vector <$> xss)).
    rewrite length_fmap, Nat.eqb_refl. cbn [andb].
    induction Hall as [|xs xss Hxs _ IH]; [done|].
    cbn [fmap list_fmap forallb]. apply andb_true_iff. split; [|exact IH].
    apply (has_shape_vector n (vector xs)). eauto.
Qed.

Lemma as_vector_vector {A} (xs : list A) : as_vector (vector xs) = Ok xs.
Proof.
  unfold as_vector, vector. apply traverse_Forall2.
  induction xs as [|x xs IH]; simpl; by constructor.
Qed.

Lemma as_matrix_matrix {A} (xss : list (list A)) : as_matrix (matrix xss) = Ok xss.
Proof.
  unfold as_matrix, matrix. apply traverse_Forall2.
  induction xss as [|xs xss IH]; simpl; constructor; [apply as_vector_vector | done].
Qed.

(** ** The dataset wrapper *)

Section DatasetProperties.

Variable tokenizer : string → string → nat → BatchEncoding.

Local Abbreviation tokenize := (tokenize tokenizer).
Local Abbreviation tokenizer_pads_to := (tokenizer_pads_to tokenizer).

Lemma GlueDataset_init_loop (max_length : nat) (rows : list (string * string * Z))
    (self : GlueDataset) :
  fold_left
    (λ self '(s1, s2, l),
       {| inputs := inputs self ++ [tokenizer s1 s2 max_length];
          labels := labels self ++ [l] |})
    rows self =
  {| inputs := inputs self ++ ((λ '(s1, s2, _), tokenizer s1 s2 max_length) <$> rows);
     labels := labels self ++ ((λ '(_, _, l), l) <$> rows) |}.
Proof.
  revert self. induction rows as [|[[s1 s2] l] rows IH]; intros self; simpl.
  - rewrite !app_nil_r. by destruct self.
  - rewrite IH. simpl. by rewrite <- !app_assoc.
Qed.

Lemma GlueDataset_init_eq (raw : RawDataset) (max_length : nat) :
  GlueDataset_init tokenizer raw max_length =
  {| inputs := tokenize max_length <$> raw; labels := label <$> raw |}.
Proof.
  unfold GlueDataset_init. rewrite zip3_columns.
  etransitivity; [apply GlueDataset_init_loop|]. simpl.
  by rewrite <- !list_fmap_compose.
Qed.

Lemma GlueDataset_init_len (raw : RawDataset) (max_length : nat) :
  GlueDataset_len (GlueDataset_init tokenizer raw max_length) = length raw.
Proof.
  rewrite GlueDataset_init_eq. unfold GlueDataset_len. simpl. apply length_fmap.
Qed.

Lemma GlueDataset_getitem_nat (raw : RawDataset) (max_length i : nat) (ex : example) :
  raw !! i = Some ex →
  GlueDataset_getitem (GlueDataset_init tokenizer raw max_length) (Z.of_nat i) =
  Ok (<["labels" := Scalar (label ex)]> (squeeze0 <$> tokenize max_length ex)).
Proof.
  intros Hi. rewrite GlueDataset_init_eq. unfold GlueDataset_getitem. simpl.
  rewrite (list_getitem_nat _ i (tokenize max_length ex)) by (by rewrite list_lookup_fmap, Hi).
  simpl.
  by rewrite (list_getitem_nat _ i (label ex)) by (by rewrite list_lookup_fmap, Hi).
Qed.

Lemma squeeze0_shape {A} (s : list nat) (t : tensor A) :
  has_shape (1 :: s) t = true → has_shape s (squeeze0 t) = true.
Proof.
  destruct t as [a|[|t' [|t'' ts]]]; simpl; try discriminate.
  rewrite andb_true_r. done.
Qed.

(** C7. [len(dataset)] is the number of records the wrapper was built
    from, and [dataset[i]] at a valid index [i] carries, under
    ["labels"], the label of the [i]-th record. *)
Theorem GlueDataset_len_and_labels (raw : RawDataset) (max_length : nat) :
  let self := GlueDataset_init tokenizer raw max_length in
  GlueDataset_len self = length raw ∧
  ∀ (i : nat) (ex : example),
    raw !! i = Some ex →
    ∃ item, GlueDataset_getitem self (Z.of_nat i) = Ok item ∧
            item !! "labels" = Some (Scalar (label ex)).
Proof.
  intros self. subst self. split.
  - apply GlueDataset_init_len.
  - intros i ex Hi. eexists. split; [by apply GlueDataset_getitem_nat|].
    apply lookup_insert_eq.
Qed.

(** C8. An index at or beyond the size of the wrapper raises
    [IndexError]; no record is returned. *)
Theorem GlueDataset_getitem_out_of_range (self : GlueDataset) (idx : Z) :
  (Z.of_nat (GlueDataset_len self) ≤ idx)%Z →
  GlueDataset_getitem self idx = Raise IndexError.
Proof.
  intros Hge. unfold GlueDataset_getitem.
  by rewrite list_getitem_ge.
Qed.

(** C10. A negative index down to [-len(dataset)] does not fail: it
    returns the record at position [len(dataset) + idx], the one built
    from that record of the input. *)
Theorem GlueDataset_getitem_negative (raw : RawDataset) (max_length : nat) (idx : Z) :
  let self := GlueDataset_init tokenizer raw max_length in
  (- Z.of_nat (GlueDataset_len self) ≤ idx < 0)%Z →
  ∃ item ex,
    GlueDataset_getitem self idx = Ok item ∧
    GlueDataset_getitem self (Z.of_nat (GlueDataset_len self) + idx) = Ok item ∧
    raw !! Z.to_nat (Z.of_nat (length raw) + idx) = Some ex ∧
    item !! "labels" = Some (Scalar (label ex)).
Proof.
  intros self Hidx.
  assert (Hlen : GlueDataset_len self = length raw) by apply GlueDataset_init_len.
  rewrite Hlen in *.
  destruct (lookup_lt_is_Some_2 raw (Z.to_nat (Z.of_nat (length raw) + idx))) as [ex Hex];
    [lia|].
  assert (Hat : GlueDataset_getitem self (Z.of_nat (length raw) + idx) =
                Ok (<["labels" := Scalar (label ex)]> (squeeze0 <$> tokenize max_length ex))).
  { rewrite <- (Z2Nat.id (Z.of_nat (length raw) + idx)) by lia.
    by apply GlueDataset_getitem_nat. }
  exists (<["labels" := Scalar (label ex)]> (squeeze0 <$> tokenize max_length ex)), ex.
  split; [|split; [done|split; [done|apply lookup_insert_eq]]].
  rewrite <- Hat. subst self. rewrite GlueDataset_init_eq.
  unfold GlueDataset_getitem. simpl.
  rewrite (list_getitem_negative (tokenize max_length <$> raw) idx)
    by (rewrite length_fmap; lia).
  rewrite (list_getitem_negative (label <$> raw) idx) by (rewrite length_fmap; lia).
  by rewrite !length_fmap.
Qed.

(** C1. When the tokenizer pads and truncates to [max_length], every
    record of the wrapper has ids and a mask of exactly that length,
    whatever the sentences are. *)
Theorem GlueDataset_fixed_length (raw : RawDataset) (max_length i : nat) (ex : example) :
  tokenizer_pads_to max_length →
  raw !! i = Some ex →
  ∃ item ids mask,
    GlueDataset_getitem (GlueDataset_init tokenizer raw max_length) (Z.of_nat i) = Ok item ∧
    item !! "input_ids" = Some ids ∧ has_shape [max_length] ids = true ∧
    item !! "attention_mask" = Some mask ∧ has_shape [max_length] mask = true.
Proof.
  intros Htok Hi.
  destruct (Htok (sentence1 ex) (sentence2 ex)) as (ids & mask & Hids & Sids & Hmask & Smask).
  exists (<["labels" := Scalar (label ex)]> (squeeze0 <$> tokenize max_length ex)),
    (squeeze0 ids), (squeeze0 mask).
  split; [by apply GlueDataset_getitem_nat|].
  rewrite !lookup_insert_ne by done. rewrite !lookup_fmap.
  unfold tokenize. rewrite Hids, Hmask.
  repeat split; by apply squeeze0_shape.
Qed.

End DatasetProperties.

(** ** The classification wrapper *)

Section ClassifierProperties.

Variable base_model_call :
  PreTrainedModel → bool → nat → tensor Z → tensor Z → result (list (list (list Q))).
Variable bernoulli : nat → nat → nat → bool.

Local Abbreviation forward := (CustomClassifier_forward base_model_call bernoulli).
Local Abbreviation base_model_shapes := (base_model_shapes base_model_call).

Lemma Linear_forward_shape (l : Linear) (n_in n_out : nat) (x : list (list Q)) :
  Linear_shaped n_in n_out l = true →
  Forall (λ row, length row = n_in) x →
  ∃ y, Linear_forward l x = Ok y ∧ length y = length x ∧
       Forall (λ row, length row = n_out) y.
Proof.
  intros [HW Hb]%andb_true_iff Hx.
  apply has_shape_matrix in HW as (W & HW & HWlen & HWrows).
  apply has_shape_vector in Hb as (b & Hb & Hblen).
  unfold Linear_forward. rewrite HW, Hb, as_matrix_matrix, as_vector_vector. simpl.
  exists ((λ row, zip_with Qplus ((λ w, dot w row) <$> W) b) <$> x).
  split; [|split].
  - apply traverse_total. eapply Forall_impl; [exact Hx|]. intros row Hrow. simpl.
    assert (forallb (λ w, Nat.eqb (length w) (length row)) W = true) as ->.
    { apply forallb_forall. intros w Hw%list_elem_of_In.
      rewrite Forall_forall in HWrows. rewrite (HWrows w Hw), Hrow.
      apply Nat.eqb_refl. }
    by rewrite Hblen, HWlen, Nat.eqb_refl.
  - apply length_fmap.
  - apply Forall_fmap, Forall_true. intros row. simpl.
    rewrite length_zip_with, length_fmap. lia.
Qed.

Lemma Dropout_forward_shape (p : Q) (training : bool) (rng n : nat) (x : list (list Q)) :
  Forall (λ row, length row = n) x →
  length (Dropout_forward bernoulli p training rng x) = length x ∧
  Forall (λ row, length row = n) (Dropout_forward bernoulli p training rng x).
Proof.
  intros Hx. unfold Dropout_forward. destruct training; [|done].
  split; [apply length_imap|].
  apply Forall_forall. intros row (i & row' & -> & Hi)%elem_of_lookup_imap_1.
  rewrite length_imap. rewrite Forall_forall in Hx.
  apply Hx. by eapply list_elem_of_lookup_2.
Qed.

Lemma list_getitem_0 {A} (l : list A) :
  list_getitem l 0 = match l with x :: _ => Ok x | [] => Raise IndexError end.
Proof. destruct l as [|x l]; [done|]. by apply (list_getitem_nat (x :: l) 0 x). Qed.

Lemma cls_token_state_shape (B L H : nat) (h : list (list (list Q))) :
  hidden_states B L H h → 0 < L →
  ∃ pooled, traverse (λ hidden, list_getitem hidden 0) h = Ok pooled ∧
            length pooled = B ∧ Forall (λ v, length v = H) pooled.
Proof.
  intros [<- Hh] HL.
  induction Hh as [|hidden h [Hlen Hvs] _ IH]; simpl; [by exists []|].
  destruct IH as (pooled & -> & Hp & Hall). rewrite list_getitem_0.
  destruct Hvs as [|v hidden Hv _]; simpl in *; [lia|].
  exists (v :: pooled). simpl. repeat split; [by f_equal | by constructor].
Qed.

Lemma forward_shape (self : CustomClassifier) (n_labels rng B L : nat)
    (input_ids attention_mask : tensor Z) :
  base_model_shapes →
  classifier_for n_labels self →
  has_shape [B; L] input_ids = true →
  has_shape [B; L] attention_mask = true →
  0 < L →
  ∃ logits, forward self rng input_ids attention_mask = Ok logits ∧
            length logits = B ∧ Forall (λ row, length row = n_labels) logits.
Proof.
  intros Hbase (p & l & Hcls & Hl) Hids Hmask HL.
  unfold CustomClassifier_forward.
  destruct (Hbase (base_model self) (training self) rng input_ids attention_mask B L
              Hids Hmask HL) as (h & -> & Hh).
  cbn [bind].
  destruct (cls_token_state_shape _ _ _ h Hh HL) as (pooled & -> & Hlen & Hpooled).
  cbn [bind]. rewrite Hcls. unfold Sequential_forward. cbn [for_each Layer_forward bind].
  destruct (Dropout_forward_shape p (training self) rng _ pooled Hpooled) as [Hdlen Hdropped].
  destruct (Linear_forward_shape l _ n_labels _ Hl Hdropped) as (y & -> & Hylen & Hyrows).
  exists y. cbn [bind]. split; [done|]. split; [congruence | done].
Qed.

(** C6. The forward pass is the encoder on the ids and the mask, the
    hidden state of the first position, dropout in training mode only,
    and then the linear layer; a failure of any stage is the failure of
    the whole. *)
Theorem forward_refines_specification (base : PreTrainedModel) (p : Q) (l : Linear)
    (training : bool) (rng : nat) (input_ids attention_mask : tensor Z) :
  forward {| base_model := base; classifier := [Dropout p; LinearLayer l];
             training := training |} rng input_ids attention_mask =
  forward_as_specified base_model_call bernoulli base p l training rng
    input_ids attention_mask.
Proof.
  unfold CustomClassifier_forward, forward_as_specified. simpl.
  destruct (base_model_call base training rng input_ids attention_mask) as [h|e];
    [simpl|done].
  unfold first_token.
  rewrite (traverse_ext (λ hidden, list_getitem hidden 0)
             (λ hidden, match hidden with v :: _ => Ok v | [] => Raise IndexError end))
    by (apply Forall_true; intros hidden; apply list_getitem_0).
  match goal with |- context [traverse ?f h] => destruct (traverse f h) as [pooled|e] end;
    [simpl|done].
  unfold Sequential_forward. cbn [for_each Layer_forward bind].
  assert (Dropout_forward bernoulli p training rng pooled =
          if training then Dropout_forward bernoulli p true rng pooled else pooled) as ->
    by (by destruct training).
  by destruct (Linear_forward l _).
Qed.

(** C5. On ids and a mask for [B] examples the forward pass returns
    [B] vectors of [n_labels] logits each: a tensor of shape
    [[B, n_labels]]. *)
Theorem forward_logits_shape (self : CustomClassifier) (n_labels rng B L : nat)
    (input_ids attention_mask : tensor Z) :
  base_model_shapes →
  classifier_for n_labels self →
  has_shape [B; L] input_ids = true →
  has_shape [B; L] attention_mask = true →
  0 < L →
  ∃ logits, forward self rng input_ids attention_mask = Ok logits ∧
            length logits = B ∧ Forall (λ row, length row = n_labels) logits ∧
            has_shape [B; n_labels] (matrix logits) = true.
Proof.
  intros Hbase Hcls Hids Hmask HL.
  destruct (forward_shape self n_labels rng B L input_ids attention_mask
              Hbase Hcls Hids Hmask HL) as (logits & Hrun & Hlen & Hrows).
  exists logits. repeat split; try done.
  apply has_shape_matrix. eauto.
Qed.

End ClassifierProperties.

(** ** Loaders *)

Lemma for_each_invariant {S A} (P : S → Prop) (body : S → A → result S)
    (xs : list A) (s s' : S) :
  (∀ s x s', P s → body s x = Ok s' → P s') →
  P s → for_each body xs s = Ok s' → P s'.
Proof.
  intros Hbody. revert s. induction xs as [|x xs IH]; intros s Hs; simpl.
  - by intros [= <-].
  - intros (s1 & H1 & Hrest)%bind_ok. eauto.
Qed.

Lemma elem_of_concat {A} (x : A) (ls : list (list A)) :
  x ∈ concat ls ↔ ∃ l, l ∈ ls ∧ x ∈ l.
Proof.
  induction ls as [|l ls IH]; simpl.
  - split; [by intros ?%not_elem_of_nil | by intros (l & ?%not_elem_of_nil & _)].
  - rewrite elem_of_app, IH. split.
    + intros [Hx|(l' & Hl' & Hx)]; [exists l | exists l']; split; by (done || constructor).
    + intros (l' & [->|Hl']%elem_of_cons & Hx); eauto.
Qed.

Lemma BatchSampler_concat (batch_size : nat) (batch sampler : list nat) :
  concat (BatchSampler batch_size batch sampler) = batch ++ sampler.
Proof.
  revert batch. induction sampler as [|idx rest IH]; intros batch; simpl.
  - destruct batch; simpl; by rewrite ?app_nil_r.
  - destruct (Nat.eqb _ _); simpl; rewrite IH; by rewrite <- ?app_assoc.
Qed.

Lemma BatchSampler_nonempty (batch_size : nat) (batch sampler : list nat) :
  Forall (λ idxs, idxs ≠ []) (BatchSampler batch_size batch sampler).
Proof.
  revert batch. induction sampler as [|idx rest IH]; intros batch; simpl.
  - destruct batch; simpl; [constructor|]. by repeat constructor.
  - destruct (Nat.eqb _ _); [constructor|]; auto.
    by destruct batch.
Qed.

Lemma shape_of_rank_le_1 {A} (s : list nat) (t : tensor A) :
  (length s ≤ 1)%nat → has_shape s t = true → shape t = s.
Proof.
  destruct s as [|n [|? ?]]; simpl; [| |lia]; intros _.
  - by destruct t.
  - intros (xs & -> & <-)%has_shape_vector. simpl. rewrite length_fmap.
    by destruct xs.
Qed.

Lemma stack_ok {A} (s : list nat) (ts : list (tensor A)) :
  (length s ≤ 1)%nat → ts ≠ [] → Forall (λ t, has_shape s t = true) ts →
  stack ts = Ok (Dim ts).
Proof.
  intros Hs Hne Hts. destruct ts as [|t0 ts]; [done|]. unfold stack.
  rewrite (shape_of_rank_le_1 s t0 Hs) by (by inversion Hts).
  assert (forallb (has_shape s) (t0 :: ts) = true) as ->; [|done].
  apply forallb_forall. intros t Ht%list_elem_of_In.
  rewrite Forall_forall in Hts. auto.
Qed.

Lemma item_fields_lookup (n : nat) (l : Z) (item : BatchEncoding) (key : string) :
  item_fields n l item → key ∈ dom item →
  dict_getitem item key = Ok (field key item) ∧
  ∃ s, (length s ≤ 1)%nat ∧ has_shape s (field key item) = true ∧
       (key = "labels" → s = []) ∧ (key ≠ "labels" → s = [n]).
Proof.
  intros (ids & mask & -> & Hids & Hmask) Hkey.
  apply elem_of_dom in Hkey as [t Ht].
  unfold dict_getitem, field. rewrite Ht. split; [done|]. simpl.
  destruct (decide (key = "labels")) as [->|Hl].
  { rewrite lookup_insert_eq in Ht. injection Ht as <-. exists []. simpl.
    split; [lia|]. by repeat split. }
  rewrite lookup_insert_ne in Ht by done.
  exists [n]. split; [simpl; lia|]. split; [|done].
  destruct (decide (key = "input_ids")) as [->|Hi].
  { rewrite lookup_insert_eq in Ht. injection Ht as <-.
    apply has_shape_vector. eauto. }
  rewrite lookup_insert_ne in Ht by done.
  apply lookup_singleton_Some in Ht as [<- <-].
  apply has_shape_vector. eauto.
Qed.

Lemma item_fields_dom (n : nat) (l : Z) (item : BatchEncoding) :
  item_fields n l item →
  dom item = ({[ "labels"; "input_ids"; "attention_mask" ]} : gset string).
Proof.
  intros (ids & mask & -> & _). rewrite dom_insert_L, dom_insert_L, dom_singleton_L.
  set_solver.
Qed.

Lemma items_columns (n : nat) (ls : list Z) (items : list BatchEncoding) :
  Forall2 (item_fields n) ls items →
  ∃ idss masks,
    field "input_ids" <$> items = vector <$> idss ∧
    field "attention_mask" <$> items = vector <$> masks ∧
    field "labels" <$> items = Scalar <$> ls ∧
    length idss = length ls ∧ Forall (λ ids, length ids = n) idss ∧
    length masks = length ls ∧ Forall (λ mask, length mask = n) masks.
Proof.
  induction 1 as [|l item ls items (ids & mask & -> & Hids & Hmask) _ IH].
  - by exists [], [].
  - destruct IH as (idss & masks & Hi & Hm & Hl & Hil & Hif & Hml & Hmf).
    exists (ids :: idss), (mask :: masks).
    rewrite !fmap_cons, Hi, Hm, Hl. cbn [length]. rewrite Hil, Hml. unfold field.
    rewrite lookup_insert_eq.
    rewrite (lookup_insert_ne _ "labels" "input_ids") by done.
    rewrite (lookup_insert_ne _ "labels" "attention_mask") by done.
    rewrite lookup_insert_eq.
    rewrite (lookup_insert_ne _ "input_ids" "attention_mask") by done.
    rewrite lookup_singleton_eq.
    repeat split; try done; by constructor.
Qed.

Lemma default_collate_fields (n : nat) (ls : list Z) (items : list BatchEncoding) :
  items ≠ [] → Forall2 (item_fields n) ls items →
  ∃ batch, default_collate items = Ok batch ∧ batch_fields n ls batch.
Proof.
  intros Hne Hitems.
  set (column := λ key : string, (key, Dim (field key <$> items))).
  assert (Hcol : ∀ elem key, elem ∈ items → key ∈ dom elem →
    (let* values := traverse (λ d : BatchEncoding, dict_getitem d key) items in
     let* stacked := stack values in Ok (key, stacked)) = Ok (column key)).
  { intros elem key Helem Hkey.
    assert (Hdom : ∀ item, item ∈ items → key ∈ dom item).
    { intros item (i & Hi)%list_elem_of_lookup.
      apply list_elem_of_lookup in Helem as (j & Hj).
      destruct (Forall2_lookup_r _ _ _ _ _ Hitems Hi) as (l & _ & Hl).
      destruct (Forall2_lookup_r _ _ _ _ _ Hitems Hj) as (l' & _ & Hl').
      rewrite (item_fields_dom _ _ _ Hl).
      by rewrite <- (item_fields_dom _ _ _ Hl'). }
    rewrite (traverse_total _ (field key)); [simpl|].
    2:{ apply Forall_forall. intros item Hitem.
        apply list_elem_of_lookup in Hitem as Hi. destruct Hi as (i & Hi).
        destruct (Forall2_lookup_r _ _ _ _ _ Hitems Hi) as (l & _ & Hl).
        by apply (item_fields_lookup n l item key Hl), Hdom. }
    rewrite (stack_ok (if decide (key = "labels") then [] else [n])); [done| | |].
    - case_decide; simpl; lia.
    - by destruct items.
    - apply Forall_fmap, Forall_forall. intros item Hitem. simpl.
      apply list_elem_of_lookup in Hitem as Hi. destruct Hi as (i & Hi).
      destruct (Forall2_lookup_r _ _ _ _ _ Hitems Hi) as (l & _ & Hl).
      destruct (item_fields_lookup n l item key Hl (Hdom item Hitem))
        as (_ & s & _ & Hs & Hlab & Hnlab).
      case_decide; [by rewrite <- Hlab | by rewrite <- Hnlab]. }
  destruct items as [|elem rest]; [done|]. unfold default_collate.
  rewrite (traverse_total _ column); [simpl|].
  2:{ apply Forall_forall. intros key Hkey%elem_of_elements.
      apply (Hcol elem); [left | done]. }
  exists (set_to_map column (dom elem)). split; [done|].
  assert (Hlookup : ∀ key, key ∈ dom elem →
    (set_to_map column (dom elem) : BatchEncoding) !! key
    = Some (Dim (field key <$> elem :: rest))).
  { intros key Hkey. apply lookup_set_to_map; [|by exists key].
    by intros y y' _ _ [=]. }
  destruct (items_columns n ls _ Hitems) as (idss & masks & Hi & Hm & Hl & Hlens).
  apply Forall2_cons_inv_r in Hitems as (l & ls' & Hl0 & _ & ->).
  pose proof (item_fields_dom _ _ _ Hl0) as Hdom.
  exists idss, masks. unfold matrix. unfold vector at 3. rewrite <- Hi, <- Hm, <- Hl.
  split; [apply Hlookup; rewrite Hdom; set_solver|].
  split; [apply Hlookup; rewrite Hdom; set_solver|].
  split; [apply Hlookup; rewrite Hdom; set_solver|done].
Qed.

Section LoaderProperties.

Variable tokenizer : string → string → nat → BatchEncoding.

Local Abbreviation GlueDataset_init := (GlueDataset_init tokenizer).
Local Abbreviation tokenizer_two_fields := (tokenizer_two_fields tokenizer).

Lemma tokenizer_two_fields_pads (n : nat) :
  tokenizer_two_fields n → tokenizer_pads_to tokenizer n.
Proof.
  intros Htok s1 s2. destruct (Htok s1 s2) as (ids & mask & -> & Hids & Hmask).
  exists ids, mask. rewrite lookup_insert_eq.
  rewrite lookup_insert_ne by done. by rewrite lookup_singleton_eq.
Qed.

Lemma GlueDataset_item_fields (raw : RawDataset) (max_length i : nat) (ex : example) :
  tokenizer_two_fields max_length → raw !! i = Some ex →
  ∃ item, GlueDataset_getitem (GlueDataset_init raw max_length) (Z.of_nat i) = Ok item ∧
          item_fields max_length (label ex) item.
Proof.
  intros Htok Hi. eexists. split; [by apply GlueDataset_getitem_nat|].
  unfold tokenize. destruct (Htok (sentence1 ex) (sentence2 ex)) as (ids & mask & -> & Hids & Hmask).
  apply squeeze0_shape, has_shape_vector in Hids as (xs & Hxs & Hxlen).
  apply squeeze0_shape, has_shape_vector in Hmask as (ms & Hms & Hmlen).
  exists xs, ms. by rewrite fmap_insert, map_fmap_singleton, Hxs, Hms.
Qed.

Lemma traverse_getitem_fields (raw : RawDataset) (max_length : nat) (idxs : list nat) :
  tokenizer_two_fields max_length →
  Forall (λ i, i < length raw) idxs →
  ∃ items,
    traverse (λ i, GlueDataset_getitem (GlueDataset_init raw max_length) (Z.of_nat i)) idxs
    = Ok items ∧
    Forall2 (item_fields max_length) (label_at raw <$> idxs) items.
Proof.
  intros Htok. induction 1 as [|i idxs Hi _ (items & IH & Hitems)]; simpl.
  - exists []. by split; [|constructor].
  - destruct (lookup_lt_is_Some_2 raw i Hi) as [ex Hex].
    destruct (GlueDataset_item_fields raw max_length i ex Htok Hex) as (item & -> & Hitem).
    simpl. rewrite IH. simpl. exists (item :: items). split; [done|].
    constructor; [|done]. unfold label_at. by rewrite Hex.
Qed.

Lemma DataLoader_iter_fields (raw : RawDataset) (max_length bs : nat) (sh : bool)
    (order : list nat) :
  tokenizer_two_fields max_length →
  Forall (λ i, i < length raw) order →
  Forall2
    (λ fetched idxs,
       (∃ batch, fetched = Ok batch ∧ batch_fields max_length (label_at raw <$> idxs) batch) ∧
       Forall (λ i, i < length raw) idxs)
    (DataLoader_iter
       {| dataset := GlueDataset_init raw max_length; batch_size := bs; shuffle := sh |} order)
    (BatchSampler bs [] order).
Proof.
  intros Htok Horder. unfold DataLoader_iter. simpl.
  apply Forall2_fmap_l, Forall_Forall2_diag, Forall_forall.
  intros idxs Hidxs.
  assert (Hin : Forall (λ i, i < length raw) idxs).
  { apply Forall_forall. intros i Hi. rewrite Forall_forall in Horder. apply Horder.
    rewrite <- (app_nil_l order), <- (BatchSampler_concat bs [] order).
    apply elem_of_concat. eauto. }
  unfold compose. split; [|done].
  destruct (traverse_getitem_fields raw max_length idxs Htok Hin) as (items & -> & Hitems).
  simpl. apply default_collate_fields; [|done].
  pose proof (BatchSampler_nonempty bs [] order) as Hne.
  rewrite Forall_forall in Hne. specialize (Hne idxs Hidxs).
  apply Forall2_length in Hitems. rewrite length_fmap in Hitems.
  destruct items; [|done]. by destruct idxs.
Qed.

End LoaderProperties.

(** ** Counting and ratios *)

Lemma count_equal_bounds (xs ys : list Z) :
  (0 ≤ count_equal xs ys ≤ Z.of_nat (length xs))%Z.
Proof.
  unfold count_equal. split; [lia|]. apply inj_le.
  etransitivity; [apply length_filter|]. rewrite length_zip. lia.
Qed.

Lemma count_equal_app (xs1 xs2 ys1 ys2 : list Z) :
  length xs1 = length ys1 →
  count_equal (xs1 ++ xs2) (ys1 ++ ys2) = (count_equal xs1 ys1 + count_equal xs2 ys2)%Z.
Proof.
  intros Hlen. unfold count_equal.
  rewrite zip_with_app by done. rewrite filter_app, length_app. lia.
Qed.

Lemma concat_fmap {A B} (f : A → B) (ls : list (list A)) :
  concat ((λ l : list A, f <$> l) <$> ls) = f <$> concat ls.
Proof.
  induction ls as [|l ls IH]; [done|].
  rewrite fmap_cons. cbn [concat]. by rewrite fmap_app, IH.
Qed.

Lemma label_at_seq (raw : RawDataset) :
  label_at raw <$> seq 0 (length raw) = label <$> raw.
Proof.
  apply list_eq. intros i. rewrite !list_lookup_fmap.
  destruct (raw !! i) as [ex|] eqn:Hi; simpl.
  - pose proof (lookup_lt_Some _ _ _ Hi) as Hlt.
    rewrite (proj2 (lookup_seq 0 (length raw) i i)) by done. simpl.
    unfold label_at. by rewrite Hi.
  - apply lookup_ge_None in Hi.
    by rewrite (proj2 (lookup_ge_None (seq 0 (length raw)) i)) by (rewrite length_seq; lia).
Qed.

Lemma ratio_bounds (a : Z) (n : nat) :
  (0 ≤ a ≤ Z.of_nat n)%Z → 0 < n →
  (0 <= inject_Z a / inject_Z (Z.of_nat n) <= 1)%Q.
Proof.
  intros [Ha Han] Hn.
  assert (Hpos : (0 < inject_Z (Z.of_nat n))%Q).
  { change 0%Q with (inject_Z 0). rewrite <- Zlt_Qlt. lia. }
  split.
  - apply Qle_shift_div_l; [done|]. rewrite Qmult_0_l.
    change 0%Q with (inject_Z 0). rewrite <- Zle_Qle. lia.
  - apply Qle_shift_div_r; [done|]. rewrite Qmult_1_l. by rewrite <- Zle_Qle.
Qed.

(** ** The evaluation cell *)

Lemma set_training_id (m : CustomClassifier) (mode : bool) :
  training m = mode → set_training mode m = m.
Proof. destruct m. simpl. by intros ->. Qed.

Section EvaluationProperties.

Variable tokenizer : string → string → nat → BatchEncoding.
Variable base_model_call :
  PreTrainedModel → bool → nat → tensor Z → tensor Z → result (list (list (list Q))).
Variable bernoulli : nat → nat → nat → bool.
Variable randperm : nat → nat → list nat.
Variable AdamWState : Type.

Local Abbreviation State := (state AdamWState).
Local Abbreviation eval_body := (eval_batch base_model_call bernoulli).
Local Abbreviation eval_cell := (evaluation_cell base_model_call bernoulli randperm).
Local Abbreviation predict := (predict_batch base_model_call bernoulli).
Local Abbreviation predicted := (predicted_labels base_model_call bernoulli).
Local Abbreviation encoder_shapes := (base_model_shapes base_model_call).

Lemma set_rng_id (st : State) : set_rng (rng st) st = st.
Proof. by destruct st. Qed.

Lemma traverse_argmax (n_labels : nat) (logits : list (list Q)) :
  0 < n_labels → Forall (λ row, length row = n_labels) logits →
  ∃ predictions, traverse argmax logits = Ok predictions.
Proof.
  intros Hn. induction 1 as [|row logits Hrow _ [predictions IH]]; simpl; [by eexists|].
  destruct row as [|x row]; simpl in *; [lia|]. rewrite IH. simpl. by eexists.
Qed.

Lemma sum_eq_vector (predictions ls : list Z) :
  length predictions = length ls →
  sum_eq predictions (vector ls) = Ok (count_equal predictions ls).
Proof.
  intros Hlen. unfold sum_eq. rewrite as_vector_vector. simpl.
  by rewrite Hlen, Nat.eqb_refl.
Qed.

Lemma eval_batch_fields (st : State) (total : Z) (n n_labels : nat) (ls : list Z)
    (batch : BatchEncoding) :
  encoder_shapes → classifier_for n_labels (model st) → training (model st) = false →
  0 < n → 0 < n_labels → batch_fields n ls batch →
  ∃ predictions,
    predict (model st) (rng st) batch = Ok predictions ∧
    length predictions = length ls ∧
    eval_body (st, total) batch
    = Ok (emit EvForward st, (total + count_equal predictions ls)%Z).
Proof.
  intros Hbase Hcls Hmode Hn Hlabels
    (idss & masks & Hids & Hmask & Hls & Hilen & Hirows & Hmlen & Hmrows).
  destruct (forward_shape base_model_call bernoulli (model st) n_labels (rng st)
              (length ls) n (matrix idss) (matrix masks) Hbase Hcls)
    as (logits & Hlogits & Hlen & Hrows); [| |done|].
  { apply has_shape_matrix. eauto. }
  { apply has_shape_matrix. eauto. }
  destruct (traverse_argmax n_labels logits Hlabels Hrows) as [predictions Hpred].
  pose proof (traverse_length _ _ _ Hpred) as Hplen.
  exists predictions.
  unfold predict_batch, eval_batch, model_call, dict_getitem.
  rewrite Hids, Hmask, Hls. cbn [bind].
  rewrite (set_training_id _ _ Hmode), Hlogits, Hmode. cbn [bind].
  rewrite Hpred. cbn [bind]. rewrite sum_eq_vector by congruence. cbn [bind].
  rewrite set_rng_id. split; [done|]. split; [congruence | done].
Qed.

Lemma eval_loop_fields (n n_labels : nat) (fetched : list (result BatchEncoding))
    (lss : list (list Z)) (st : State) (total : Z) :
  encoder_shapes → classifier_for n_labels (model st) → training (model st) = false →
  0 < n → 0 < n_labels →
  Forall2 (λ f ls, ∃ batch, f = Ok batch ∧ batch_fields n ls batch) fetched lss →
  ∃ per_batch st',
    traverse (λ f, let* batch := f in predict (model st) (rng st) batch) fetched
    = Ok per_batch ∧
    length (concat per_batch) = length (concat lss) ∧
    for_each (λ acc f, let* batch := f in eval_body acc batch) fetched (st, total)
    = Ok (st', (total + count_equal (concat per_batch) (concat lss))%Z) ∧
    model st' = model st ∧ rng st' = rng st.
Proof.
  intros Hbase Hcls Hmode Hn Hlabels Hfetched. revert st total Hcls Hmode.
  induction Hfetched as [|f ls fetched lss (batch & -> & Hbatch) _ IH];
    intros st total Hcls Hmode.
  - exists [], st. simpl. by rewrite Z.add_0_r.
  - destruct (eval_batch_fields st total n n_labels ls batch Hbase Hcls Hmode Hn Hlabels Hbatch)
      as (predictions & Hpred & Hplen & Hstep).
    destruct (IH (emit EvForward st) (total + count_equal predictions ls)%Z Hcls Hmode)
      as (per_batch & st' & Hrest & Hlen & Hloop & Hmodel & Hrng).
    exists (predictions :: per_batch), st'.
    cbn [traverse for_each bind concat]. rewrite Hpred, Hstep. cbn [bind].
    cbn [model emit rng] in Hrest. rewrite Hrest, Hloop. cbn [bind].
    rewrite count_equal_app by done. rewrite !length_app, Hplen, Hlen, Z.add_assoc.
    done.
Qed.

(** C4. On a dataset that is not empty, the reported accuracy is the
    number of examples whose arg-max label is the label of the dataset,
    divided by the size of the dataset, and it lies between 0 and 1.
    The forward passes run at the state of the random generator after
    the one draw that the iterator of the loader takes. *)
Theorem evaluation_accuracy_is_ratio (raw : RawDataset) (max_length bs n_labels : nat)
    (st : State) :
  tokenizer_two_fields tokenizer max_length →
  encoder_shapes →
  classifier_for n_labels (model st) →
  0 < max_length → 0 < n_labels → 0 < length raw →
  let eval_loader :=
    {| dataset := GlueDataset_init tokenizer raw max_length; batch_size := bs;
       shuffle := false |} in
  ∃ predictions st',
    predicted (model st) (S (rng st)) eval_loader = Ok predictions ∧
    length predictions = length raw ∧
    let avg_accuracy :=
      (inject_Z (count_equal predictions (label <$> raw)) /
       inject_Z (Z.of_nat (length raw)))%Q in
    eval_cell eval_loader st = Ok (st', avg_accuracy) ∧
    (0 <= avg_accuracy <= 1)%Q.
Proof.
  intros Htok Hbase Hcls Hlen Hlabels Hraw eval_loader.
  assert (Hsize : GlueDataset_len (dataset eval_loader) = length raw).
  { apply GlueDataset_init_len. }
  pose proof (DataLoader_iter_fields tokenizer raw max_length bs false
                (seq 0 (length raw)) Htok) as Hiter.
  specialize (Hiter ltac:(apply Forall_forall; intros i ?%elem_of_seq; lia)).
  assert (Hbatches :
    Forall2 (λ f ls, ∃ batch, f = Ok batch ∧ batch_fields max_length ls batch)
      (DataLoader_iter eval_loader (seq 0 (length raw)))
      ((λ idxs : list nat, label_at raw <$> idxs) <$> BatchSampler bs [] (seq 0 (length raw))))
    by (apply Forall2_fmap_r; eapply Forall2_impl; [exact Hiter|]; by intros f idxs [? _]).
  destruct (eval_loop_fields max_length n_labels _ _
              (set_rng (S (rng (model_eval st))) (model_eval st)) 0 Hbase
              ltac:(exact Hcls) eq_refl Hlen Hlabels Hbatches)
    as (per_batch & st' & Hpred & Hplen & Hloop & Hmodel & Hrng).
  rewrite concat_fmap, BatchSampler_concat, app_nil_l, label_at_seq in Hloop, Hplen.
  rewrite length_fmap in Hplen.
  exists (concat per_batch), (emit (EvPrintAccuracy
    (inject_Z (count_equal (concat per_batch) (label <$> raw)) /
     inject_Z (Z.of_nat (length raw)))) st').
  split; [|split; [done|]].
  - unfold predicted_labels. rewrite Hsize.
    cbn [model model_eval emit set_model set_rng rng] in Hpred.
    unfold predict_batch, set_training in *.
    cbn [base_model classifier] in Hpred. by rewrite Hpred.
  - cbn zeta. split; [|apply ratio_bounds; [|done]].
    + unfold evaluation_cell, DataLoader_start. cbn zeta. cbn [shuffle eval_loader].
      rewrite Hsize. rewrite Z.add_0_l in Hloop. rewrite Hloop. cbn [bind].
      unfold true_div.
      destruct (Nat.eqb_spec (length raw) 0) as [H0|_]; [lia|]. done.
    + pose proof (count_equal_bounds (concat per_batch) (label <$> raw)). lia.
Qed.

Lemma evaluation_cell_model (eval_loader : DataLoader) (st st' : State) (avg_accuracy : Q) :
  eval_cell eval_loader st = Ok (st', avg_accuracy) →
  model st' = set_training false (model st).
Proof.
  intros Hrun. unfold evaluation_cell in Hrun.
  destruct (DataLoader_start randperm (model_eval st) eval_loader) as [st0 batches] eqn:Hstart.
  assert (Hst0 : model st0 = set_training false (model st)).
  { unfold DataLoader_start in Hstart. cbn zeta in Hstart.
    by destruct (shuffle eval_loader); injection Hstart as <- _. }
  apply bind_ok in Hrun as ([st1 total] & Hloop & Hrun).
  apply bind_ok in Hrun as (avg & _ & [= <- _]).
  cbn [model emit]. rewrite <- Hst0.
  apply (for_each_invariant (λ acc, model acc.1 = model st0) _ _ _ _) in Hloop; [done| |done].
  intros [s total'] [batch|e] [s' total''] Hs Hbody; [|done].
  simpl in Hbody.
  apply bind_ok in Hbody as (ids & _ & Hbody).
  apply bind_ok in Hbody as (mask & _ & Hbody).
  apply bind_ok in Hbody as (ls & _ & Hbody).
  apply bind_ok in Hbody as ([s1 logits] & Hcall & Hbody).
  apply bind_ok in Hbody as (predictions & _ & Hbody).
  apply bind_ok in Hbody as (correct & _ & [= <- _]).
  unfold model_call in Hcall.
  apply bind_ok in Hcall as (logits' & _ & [= <- _]). exact Hs.
Qed.

(** C9. The evaluation cell changes no parameter: when it ends, the
    module is the one it started from, switched to evaluation mode, so
    every named parameter has the value (and the gradient) it had. *)
Theorem evaluation_keeps_parameters (eval_loader : DataLoader) (st st' : State)
    (avg_accuracy : Q) :
  eval_cell eval_loader st = Ok (st', avg_accuracy) →
  model st' = set_training false (model st) ∧
  named_parameters (model st') = named_parameters (model st) ∧
  state_dict (model st') = state_dict (model st).
Proof.
  intros Hrun. by rewrite (evaluation_cell_model _ _ _ _ Hrun).
Qed.

End EvaluationProperties.

(** ** Parameters under an in-place update *)

Lemma string_app_assoc (a b c : string) : (a +:+ b) +:+ c = a +:+ (b +:+ c).
Proof.
  induction a as [|x a IH]; [done|].
  change (String x ((a +:+ b) +:+ c) = String x (a +:+ (b +:+ c))). by rewrite IH.
Qed.

Lemma apply_named_app (f : string → Param → Param) (ps qs : list (string * Param)) :
  apply_named f (ps ++ qs) = apply_named f ps ++ apply_named f qs.
Proof. apply fmap_app. Qed.

Lemma apply_named_with_prefix (f : string → Param → Param) (prefix : string)
    (ps : list (string * Param)) :
  apply_named f (with_prefix prefix ps) =
  with_prefix prefix (apply_named (λ k, f (prefix +:+ k)) ps).
Proof.
  unfold apply_named, with_prefix. rewrite <- !list_fmap_compose.
  apply list_fmap_ext. by intros i [k p] _.
Qed.

Lemma Layer_named_parameters_update (f : string → Param → Param) (prefix : string)
    (l : Layer) :
  Layer_named_parameters (Layer_update f prefix l) =
  apply_named (λ k, f (prefix +:+ k)) (Layer_named_parameters l).
Proof. by destruct l. Qed.

Lemma Sequential_named_parameters_update (f : string → Param → Param) (prefix : string)
    (h : nat → string) (layers : list Layer) :
  concat (imap (λ i l, with_prefix (h i) (Layer_named_parameters l))
            (imap (λ i l, Layer_update f (prefix +:+ h i) l) layers)) =
  apply_named (λ k, f (prefix +:+ k))
    (concat (imap (λ i l, with_prefix (h i) (Layer_named_parameters l)) layers)).
Proof.
  revert h. induction layers as [|l layers IH]; intros h; [done|].
  rewrite !imap_cons. cbn [concat]. rewrite apply_named_app.
  f_equal; [|apply (IH (h ∘ S))].
  rewrite Layer_named_parameters_update, apply_named_with_prefix. f_equal.
  unfold apply_named. apply list_fmap_ext. intros i [k p] _. simpl.
  by rewrite string_app_assoc.
Qed.

Lemma named_parameters_update (f : string → Param → Param) (m : CustomClassifier) :
  named_parameters (update_parameters f m) = apply_named f (named_parameters m).
Proof.
  unfold named_parameters, update_parameters. cbn [base_model classifier base_parameters].
  rewrite apply_named_app, !apply_named_with_prefix. f_equal.
  - f_equal. unfold apply_named. apply list_fmap_ext. by intros i [k p] _.
  - f_equal. apply (Sequential_named_parameters_update f "classifier." (λ i, pretty i +:+ ".")).
Qed.

Lemma apply_named_names (f : string → Param → Param) (ps : list (string * Param)) :
  (apply_named f ps).*1 = ps.*1.
Proof.
  unfold apply_named. rewrite <- list_fmap_compose. by apply list_fmap_ext.
Qed.

Lemma classifier_for_update (f : string → Param → Param) (n_labels : nat)
    (m : CustomClassifier) :
  (∀ name p s, has_shape s (data p) = true → has_shape s (data (f name p)) = true) →
  classifier_for n_labels m → classifier_for n_labels (update_parameters f m).
Proof.
  intros Hf (p & l & Hcls & [HW Hb]%andb_true_iff).
  exists p, (Linear_update f ("classifier." +:+ pretty 1 +:+ ".") l).
  unfold update_parameters. cbn [classifier base_model config_hidden_size].
  rewrite Hcls. split; [done|].
  unfold Linear_shaped, Linear_update. cbn [weight bias].
  apply andb_true_iff. auto.
Qed.

Lemma classifier_for_set_training (n_labels : nat) (mode : bool) (m : CustomClassifier) :
  classifier_for n_labels m → classifier_for n_labels (set_training mode m).
Proof. by intros (p & l & Hcls & Hl); exists p, l. Qed.

(** ** The training cell *)

Lemma filter_all {A} (P : A → Prop) `{∀ x, Decision (P x)} (l : list A) :
  Forall P l → filter P l = l.
Proof.
  induction 1 as [|x l Hx _ IH]; [done|]. by rewrite filter_cons_True, IH.
Qed.

Lemma BatchSampler_length (batch_size : nat) (batch batch' sampler sampler' : list nat) :
  length batch = length batch' → length sampler = length sampler' →
  length (BatchSampler batch_size batch sampler) =
  length (BatchSampler batch_size batch' sampler').
Proof.
  revert batch batch' sampler'.
  induction sampler as [|idx rest IH]; intros batch batch' [|idx' rest'] Hb Hs;
    try discriminate; simpl.
  - rewrite Hb. by destruct (Nat.ltb _ _).
  - rewrite !length_app, Hb. simpl. injection Hs as Hs.
    destruct (Nat.eqb _ _); simpl; [f_equal|]; apply IH; rewrite ?length_app; simpl; lia.
Qed.

Lemma imap_imap {A B C} (f : nat → B → C) (g : nat → A → B) (l : list A) :
  imap f (imap g l) = imap (λ i x, f i (g i x)) l.
Proof.
  apply list_eq. intros i. rewrite !list_lookup_imap. by destruct (l !! i).
Qed.

Lemma update_parameters_compose (f g : string → Param → Param) (m : CustomClassifier) :
  update_parameters f (update_parameters g m) =
  update_parameters (λ name p, f name (g name p)) m.
Proof.
  unfold update_parameters.
  cbn [base_model classifier base_parameters config_hidden_size training].
  f_equal.
  - f_equal. rewrite <- list_fmap_compose. apply list_fmap_ext. by intros i [k p] _.
  - rewrite imap_imap. apply imap_ext. by intros i [q|l] _.
Qed.

Lemma Linear_in_named_parameters (m : CustomClassifier) (i : nat) (l : Linear)
    (k : string) (p : Param) :
  classifier m !! i = Some (LinearLayer l) →
  (k, p) ∈ Linear_named_parameters l →
  (("classifier." +:+ pretty i +:+ ".") +:+ k, p) ∈ named_parameters m.
Proof.
  intros Hi Hk. unfold named_parameters. apply elem_of_app. right.
  rewrite string_app_assoc.
  apply list_elem_of_fmap. exists ((pretty i +:+ ".") +:+ k, p). split; [done|].
  unfold Sequential_named_parameters. apply elem_of_concat.
  exists (with_prefix (pretty i +:+ ".") (Layer_named_parameters (LinearLayer l))). split.
  - exact (elem_of_lookup_imap_2
             (λ i l, with_prefix (pretty i +:+ ".") (Layer_named_parameters l)) _ _ i Hi).
  - apply list_elem_of_fmap. by exists (k, p).
Qed.

(** An update is determined by what it does to the parameters that the
    module has. *)
Lemma update_parameters_ext (f g : string → Param → Param) (m : CustomClassifier) :
  (∀ name p, (name, p) ∈ named_parameters m → f name p = g name p) →
  update_parameters f m = update_parameters g m.
Proof.
  intros Hfg. unfold update_parameters. f_equal.
  - f_equal. apply list_fmap_ext. intros i [k p] Hi. f_equal. apply Hfg.
    unfold named_parameters. apply elem_of_app. left.
    apply list_elem_of_fmap. exists (k, p). split; [done|]. by eapply list_elem_of_lookup_2.
  - apply imap_ext. intros i [q|l] Hi; [done|]. cbn [Layer_update]. unfold Linear_update.
    f_equal. f_equal; apply Hfg; apply (Linear_in_named_parameters m i l _ _ Hi);
      unfold Linear_named_parameters; set_solver.
Qed.

Lemma with_prefix_names {V} (prefix : string) (ps : list (string * V)) :
  (with_prefix prefix ps).*1 = (λ k, prefix +:+ k) <$> ps.*1.
Proof.
  unfold with_prefix. rewrite <- !list_fmap_compose. apply list_fmap_ext. by intros i [k p] _.
Qed.

Lemma Sequential_graph_names_at (h : nat → string) (layers : list Layer) :
  concat (imap (λ i l, (λ k, h i +:+ k) <$> Layer_graph l) layers) =
  (concat (imap (λ i l, with_prefix (h i) (Layer_named_parameters l)) layers)).*1.
Proof.
  revert h. induction layers as [|l layers IH]; intros h; [done|].
  rewrite !imap_cons. cbn [concat]. rewrite fmap_app. f_equal; [|apply (IH (h ∘ S))].
  by destruct l.
Qed.

(** The leaves of the head are all its parameters. *)
Lemma Sequential_graph_names (layers : list Layer) :
  Sequential_graph layers = (Sequential_named_parameters layers).*1.
Proof. apply (Sequential_graph_names_at (λ i, pretty i +:+ ".")). Qed.

Lemma classifier_for_names (n_labels : nat) (m : CustomClassifier) :
  classifier_for n_labels m →
  (named_parameters m).*1 =
  (with_prefix "base_model." (base_parameters (base_model m))).*1 ++
  ["classifier.1.weight"; "classifier.1.bias"].
Proof.
  intros (p & l & Hcls & _). unfold named_parameters. rewrite fmap_app, Hcls. f_equal.
Qed.

Lemma state_eq {O} (s1 s2 : state O) :
  model s1 = model s2 → optimizer s1 = optimizer s2 → rng s1 = rng s2 →
  log s1 = log s2 → files s1 = files s2 → s1 = s2.
Proof. destruct s1, s2. simpl. by intros -> -> -> -> ->. Qed.

Section TrainingProperties.

Variable tokenizer : string → string → nat → BatchEncoding.
Variable base_model_call :
  PreTrainedModel → bool → nat → tensor Z → tensor Z → result (list (list (list Q))).
Variable bernoulli : nat → nat → nat → bool.
Variable randperm : nat → nat → list nat.
Variable cross_entropy : list (list Q) → tensor Z → result Q.
Variable gradient : CustomClassifier → nat → tensor Z → tensor Z → tensor Z → string → tensor Q.
Variable graph_leaves : PreTrainedModel → bool → nat → tensor Z → tensor Z → list string.
Variable AdamWState : Type.
Variable adamw_update : Q → AdamWState → string → tensor Q → tensor Q → tensor Q.
Variable adamw_next : AdamWState → AdamWState.

Local Abbreviation State := (state AdamWState).
Local Abbreviation train_body :=
  (train_batch base_model_call bernoulli cross_entropy gradient graph_leaves
     adamw_update adamw_next).
Local Abbreviation train_one_epoch :=
  (train_epoch base_model_call bernoulli randperm cross_entropy gradient graph_leaves
     adamw_update adamw_next).
Local Abbreviation train_cell :=
  (training_cell base_model_call bernoulli randperm cross_entropy gradient graph_leaves
     adamw_update adamw_next).
Local Abbreviation batch_spec := (batch_as_specified gradient adamw_update adamw_next).
Local Abbreviation loop_spec :=
  (foldl (λ (st : State) fetched,
            match fetched with
            | Ok batch => batch_spec st batch
            | Raise _ => st
            end)).
Local Abbreviation epoch_spec :=
  (epoch_as_specified randperm gradient adamw_update adamw_next).
Local Abbreviation specified :=
  (training_as_specified randperm gradient adamw_update adamw_next).
Local Abbreviation optimizer_step := (step adamw_update adamw_next).
Local Abbreviation encoder_shapes := (base_model_shapes base_model_call).
Local Abbreviation encoder_whole := (encoder_reads_every_parameter graph_leaves).
Local Abbreviation loss_defined := (cross_entropy_defined cross_entropy).
Local Abbreviation update_keeps_shape := (adamw_keeps_shape adamw_update).

Lemma forward_graph_whole (m : CustomClassifier) (rng : nat) (ids mask : tensor Z)
    (name : string) :
  encoder_whole →
  name ∈ (named_parameters m).*1 → name ∈ forward_graph graph_leaves m rng ids mask.
Proof.
  intros Hwhole. unfold named_parameters, forward_graph.
  rewrite fmap_app, !with_prefix_names, !elem_of_app.
  intros [Hname|Hname]; [left|right].
  - apply list_elem_of_fmap in Hname as (k & -> & Hk). apply list_elem_of_fmap.
    exists k. split; [done|]. by apply Hwhole.
  - by rewrite Sequential_graph_names.
Qed.

Lemma ready_update (names : list string) (n_labels : nat) (f : string → Param → Param)
    (st : State) :
  (∀ name p, requires_grad (f name p) = requires_grad p) →
  (∀ name p s, has_shape s (data p) = true → has_shape s (data (f name p)) = true) →
  ready_to_train names n_labels st →
  ready_to_train names n_labels (set_model (update_parameters f (model st)) st).
Proof.
  intros Hreq Hshape (Hcls & Hnames & Hgroup & Hfree).
  unfold ready_to_train. cbn [model set_model optimizer].
  rewrite named_parameters_update, apply_named_names.
  repeat split; [by apply classifier_for_update | done | done |].
  unfold apply_named. apply Forall_fmap. eapply Forall_impl; [exact Hfree|].
  intros [k p] Hp. simpl in *. by rewrite Hreq.
Qed.

Lemma ready_emit (names : list string) (n_labels : nat) (ev : event) (st : State) :
  ready_to_train names n_labels st → ready_to_train names n_labels (emit ev st).
Proof. done. Qed.

Lemma ready_set_rng (names : list string) (n_labels r : nat) (st : State) :
  ready_to_train names n_labels st → ready_to_train names n_labels (set_rng r st).
Proof. done. Qed.

Lemma ready_names_nonempty (names : list string) (n_labels : nat) (st : State) :
  ready_to_train names n_labels st → names ≠ [].
Proof.
  intros (Hcls & <- & _). rewrite (classifier_for_names _ _ Hcls).
  intros [_ Hnil]%app_eq_nil. discriminate Hnil.
Qed.

Lemma zero_grad_ready (names : list string) (n_labels : nat) (st : State) :
  ready_to_train names n_labels st → ready_to_train names n_labels (zero_grad st).
Proof.
  intros Hst. unfold zero_grad. apply ready_emit, ready_update; [| |done].
  - intros name p. by destruct (bool_decide _).
  - intros name p s. by destruct (bool_decide _).
Qed.

Lemma backward_ready (names graph : list string) (n_labels : nat) (g : string → tensor Q)
    (st : State) :
  ready_to_train names n_labels st →
  (∀ name, name ∈ names → name ∈ graph) →
  ∃ st',
    backward graph g st = Ok st' ∧
    st' = emit (EvBackward names)
            (set_model
               (update_parameters
                  (λ name p,
                     if requires_grad p && bool_decide (name ∈ graph)
                     then set_grad (Some (accumulate (grad p) (g name))) p
                     else p)
                  (model st))
               st) ∧
    ready_to_train names n_labels st' ∧
    Forall (λ kp, is_Some (grad kp.2)) (named_parameters (model st')).
Proof.
  intros Hst Hgraph. pose proof (ready_names_nonempty _ _ _ Hst) as Hnonempty.
  pose proof Hst as (_ & Hnames & _ & Hfree).
  assert (Hin : Forall (λ kp : string * Param, requires_grad kp.2 = true ∧ kp.1 ∈ graph)
                  (named_parameters (model st))).
  { apply Forall_forall. intros kp Hkp. split.
    - rewrite Forall_forall in Hfree. auto.
    - apply Hgraph. rewrite <- Hnames. by apply list_elem_of_fmap_2. }
  eexists. split; [|split; [reflexivity|split]].
  - unfold backward, reached_by_backward. rewrite (filter_all _ _ Hin), Hnames.
    by destruct names.
  - apply ready_emit, ready_update; [| |done].
    + intros name p. by destruct (requires_grad p && bool_decide _).
    + intros name p s. by destruct (requires_grad p && bool_decide _).
  - cbn [model emit set_model]. rewrite named_parameters_update. unfold apply_named.
    apply Forall_fmap. eapply Forall_impl; [exact Hin|]. intros [k p] [Hp Hk]. simpl in *.
    by rewrite Hp, (bool_decide_eq_true_2 _ Hk).
Qed.

Lemma step_ready (names : list string) (n_labels : nat) (st : State) :
  update_keeps_shape →
  ready_to_train names n_labels st →
  Forall (λ kp, is_Some (grad kp.2)) (named_parameters (model st)) →
  ready_to_train names n_labels (optimizer_step st) ∧
  log (optimizer_step st) = log st ++ [EvStep names].
Proof.
  intros Hadamw Hst Hgrads. split.
  - apply (ready_update names n_labels
             (λ name p,
                if bool_decide (name ∈ param_group (optimizer st)) then
                  match grad p with
                  | Some g =>
                      set_data (adamw_update (lr (optimizer st)) (moments (optimizer st))
                                  name (data p) g) p
                  | None => p
                  end
                else p) st) in Hst; [exact Hst| |].
    + intros name p. destruct (bool_decide _); [|done]. by destruct (grad p).
    + intros name p s Hs. destruct (bool_decide _); [|done].
      destruct (grad p); [|done]. by apply Hadamw.
  - destruct Hst as (_ & Hnames & Hgroup & _). unfold step, updated_by_step.
    cbn [log]. rewrite filter_all, Hnames; [done|].
    rewrite Hgroup, <- Hnames. apply Forall_forall. intros kp Hkp. split.
    + by apply list_elem_of_fmap_2.
    + rewrite Forall_forall in Hgrads. auto.
Qed.

Lemma model_train_ready (names : list string) (n_labels : nat) (st : State) :
  ready_to_train names n_labels st → ready_to_train names n_labels (model_train st).
Proof.
  intros (Hcls & Hnames & Hgroup & Hfree).
  repeat split; [by apply classifier_for_set_training | done..].
Qed.

(** On a module in training mode of which nothing is frozen, with an
    encoder that reads all its parameters, the body of the loop does to
    the state what the specification says of one batch. *)
Lemma train_batch_ready (names : list string) (n_labels n : nat) (ls : list Z)
    (batch : BatchEncoding) (st : State) :
  encoder_shapes → encoder_whole → loss_defined → update_keeps_shape →
  ready_to_train names n_labels st → training (model st) = true →
  0 < n → batch_fields n ls batch →
  Forall (λ l, (0 ≤ l < Z.of_nat n_labels)%Z) ls →
  train_body st batch = Ok (batch_spec st batch) ∧
  ready_to_train names n_labels (batch_spec st batch) ∧
  training (model (batch_spec st batch)) = true ∧
  log (batch_spec st batch) = log st ++ batch_events names.
Proof.
  intros Hbase Hwhole Hloss Hadamw Hst Hmode Hn
    (idss & masks & Hids & Hmask & Hls & Hilen & Hirows & Hmlen & Hmrows) Hrange.
  pose proof (zero_grad_ready names n_labels st Hst) as Hst0.
  destruct (forward_shape base_model_call bernoulli (model (zero_grad st)) n_labels
              (rng (zero_grad st)) (length ls) n (matrix idss) (matrix masks) Hbase
              (proj1 Hst0))
    as (logits & Hlogits & Hlen & Hrows); [| |done|].
  { apply has_shape_matrix. eauto. }
  { apply has_shape_matrix. eauto. }
  pose proof (Hloss logits (vector ls) ls n_labels Hrows (as_vector_vector ls)
                (eq_sym Hlen) Hrange) as Hce.
  destruct (cross_entropy logits (vector ls)) as [loss|e] eqn:Hloss_value; [|done].
  unfold train_batch, model_call, dict_getitem.
  rewrite Hids, Hmask, Hls. cbn [bind]. rewrite Hlogits. cbn [bind].
  rewrite Hloss_value. cbn [bind].
  match goal with |- context [backward ?G ?g ?s] =>
    assert (Hs : ready_to_train names n_labels s)
      by (by apply ready_emit, ready_emit, ready_set_rng);
    assert (HG : ∀ name, name ∈ names → name ∈ G)
      by (intros name Hname; apply forward_graph_whole; [done|];
          by rewrite (proj1 (proj2 Hst0)));
    destruct (backward_ready names G n_labels g s Hs HG) as (sb & Hback & Hsb & Hb & Hgrads);
    rewrite Hback; cbn [bind]
  end.
  destruct (step_ready names n_labels sb Hadamw Hb Hgrads) as (Hfinal & Hslog).
  destruct Hst as (Hcls & Hnames & Hgroup & Hfree).
  assert (Hcleared :
    update_parameters (λ _ p, set_grad None p) (model st) = model (zero_grad st)).
  { cbn [zero_grad model emit set_model]. apply update_parameters_ext.
    intros name p Hp. rewrite bool_decide_eq_true_2; [done|].
    rewrite Hgroup, <- Hnames. by apply (list_elem_of_fmap_2 fst _ (name, p)). }
  assert (Heq : optimizer_step sb = batch_spec st batch).
  { unfold batch_as_specified, field. rewrite Hids, Hmask, Hls, Hcleared. cbn [default].
    change (rng (zero_grad st)) with (rng st) in *.
    set (g0 := gradient _ _ _ _ _) in *. set (G0 := forward_graph _ _ _ _ _) in *.
    apply state_eq.
    - rewrite Hsb. unfold step.
      cbn [model emit set_model set_rng zero_grad optimizer].
      rewrite !update_parameters_compose. apply update_parameters_ext.
      intros name [d r gr] Hp.
      assert (Hname : name ∈ names)
        by (rewrite <- Hnames; exact (list_elem_of_fmap_2 fst _ _ Hp)).
      assert (Hr : r = true).
      { rewrite Forall_forall in Hfree. exact (Hfree _ Hp). }
      subst r. rewrite Hgroup, !(bool_decide_eq_true_2 _ Hname).
      cbn [requires_grad set_grad grad andb].
      rewrite (bool_decide_eq_true_2 _ (HG name Hname)). reflexivity.
    - rewrite Hsb. reflexivity.
    - rewrite Hsb.
      cbn [rng step emit set_model set_rng zero_grad model update_parameters training].
      by rewrite Hmode.
    - rewrite Hslog, Hsb.
      cbn [log emit set_model set_rng zero_grad]. rewrite Hnames.
      by rewrite <- !app_assoc.
    - rewrite Hsb. reflexivity. }
  rewrite Heq in *. split; [done|]. split; [done|]. split.
  - unfold batch_as_specified. cbn [model update_parameters training]. exact Hmode.
  - unfold batch_as_specified. cbn [log]. by rewrite Hnames.
Qed.

Lemma train_loop_ready (names : list string) (n_labels n : nat)
    (fetched : list (result BatchEncoding)) (lss : list (list Z)) (st : State) :
  encoder_shapes → encoder_whole → loss_defined → update_keeps_shape →
  ready_to_train names n_labels st → training (model st) = true →
  0 < n →
  Forall2
    (λ f ls, ∃ batch, f = Ok batch ∧ batch_fields n ls batch ∧
                      Forall (λ l, (0 ≤ l < Z.of_nat n_labels)%Z) ls)
    fetched lss →
  for_each (λ st f, let* batch := f in train_body st batch) fetched st
  = Ok (loop_spec st fetched) ∧
  ready_to_train names n_labels (loop_spec st fetched) ∧
  log (loop_spec st fetched) =
  log st ++ concat (replicate (length fetched) (batch_events names)).
Proof.
  intros Hbase Hwhole Hloss Hadamw Hst Hmode Hn Hfetched. revert st Hst Hmode.
  induction Hfetched as [|f ls fetched lss (batch & -> & Hbatch & Hrange) _ IH];
    intros st Hst Hmode.
  - simpl. by rewrite app_nil_r.
  - destruct (train_batch_ready names n_labels n ls batch st Hbase Hwhole Hloss Hadamw Hst
                Hmode Hn Hbatch Hrange) as (Hstep & Hst1 & Hmode1 & Hlog1).
    destruct (IH _ Hst1 Hmode1) as (Hrest & Hst' & Hlog).
    cbn [for_each bind foldl]. rewrite Hstep. cbn [bind].
    split; [exact Hrest|]. split; [done|].
    rewrite Hlog, Hlog1. cbn [length replicate concat]. by rewrite <- !app_assoc.
Qed.

Lemma label_at_range (raw : RawDataset) (n_labels i : nat) :
  Forall (λ ex, (0 ≤ label ex < Z.of_nat n_labels)%Z) raw →
  i < length raw → (0 ≤ label_at raw i < Z.of_nat n_labels)%Z.
Proof.
  intros Hraw Hi. destruct (lookup_lt_is_Some_2 raw i Hi) as [ex Hex].
  unfold label_at. rewrite Hex. simpl.
  rewrite Forall_forall in Hraw. apply Hraw. by eapply list_elem_of_lookup_2.
Qed.

Lemma train_epoch_ready (names : list string) (n_labels max_length bs epoch : nat)
    (raw : RawDataset) (st : State) :
  tokenizer_two_fields tokenizer max_length →
  encoder_shapes → encoder_whole → loss_defined → update_keeps_shape →
  randperm_permutes randperm →
  ready_to_train names n_labels st →
  0 < max_length →
  Forall (λ ex, (0 ≤ label ex < Z.of_nat n_labels)%Z) raw →
  let train_loader :=
    {| dataset := GlueDataset_init tokenizer raw max_length; batch_size := bs;
       shuffle := true |} in
  train_one_epoch train_loader st epoch = Ok (epoch_spec train_loader st epoch) ∧
  ready_to_train names n_labels (epoch_spec train_loader st epoch) ∧
  log (epoch_spec train_loader st epoch) =
  log st ++ epoch_events names (length (BatchSampler bs [] (seq 0 (length raw)))) epoch.
Proof.
  intros Htok Hbase Hwhole Hloss Hadamw Hperm Hst Hlen Hraw train_loader.
  unfold train_epoch, epoch_as_specified, DataLoader_start.
  cbn zeta. cbn [shuffle train_loader dataset].
  rewrite GlueDataset_init_len.
  set (order := randperm (rng (set_rng (S (rng (model_train st))) (model_train st)))
                  (length raw)).
  assert (Horder : Forall (λ i, i < length raw) order).
  { unfold order. rewrite (Hperm _ (length raw)).
    apply Forall_forall. intros i ?%elem_of_seq. lia. }
  pose proof (DataLoader_iter_fields tokenizer raw max_length bs true order Htok Horder)
    as Hiter.
  assert (Hbatches :
    Forall2
      (λ f ls, ∃ batch, f = Ok batch ∧ batch_fields max_length ls batch ∧
                        Forall (λ l, (0 ≤ l < Z.of_nat n_labels)%Z) ls)
      (DataLoader_iter train_loader order)
      ((λ idxs : list nat, label_at raw <$> idxs) <$> BatchSampler bs [] order)).
  { apply Forall2_fmap_r. eapply Forall2_impl; [exact Hiter|].
    intros f idxs [(batch & -> & Hbatch) Hidxs]. exists batch. split; [done|].
    split; [done|]. apply Forall_fmap. eapply Forall_impl; [exact Hidxs|].
    intros i Hi. by apply label_at_range. }
  match goal with |- context [for_each _ _ ?s] =>
    destruct (train_loop_ready names n_labels max_length _ _ s Hbase Hwhole Hloss Hadamw
                (ready_set_rng _ _ _ _ (ready_set_rng _ _ _ _ (model_train_ready _ _ _ Hst)))
                eq_refl Hlen Hbatches)
      as (Hloop & Hst' & Hlog)
  end.
  fold train_loader. rewrite Hloop. cbn [bind]. split; [done|].
  split; [by apply ready_emit|].
  cbn [log emit]. rewrite Hlog. cbn [log set_rng model_train emit set_model].
  unfold DataLoader_iter. rewrite length_fmap. cbn [batch_size train_loader].
  rewrite (BatchSampler_length bs [] [] order (seq 0 (length raw)) eq_refl)
    by (unfold order; by rewrite (Hperm _ (length raw))).
  unfold epoch_events. rewrite <- !app_assoc. done.
Qed.


End TrainingProperties.

(** ** The whole notebook *)

Lemma tensors_with_prefix (prefix : string) (ps : list (string * Param)) :
  tensors (with_prefix prefix ps) = with_prefix prefix (tensors ps).
Proof.
  unfold tensors, with_prefix. rewrite <- !list_fmap_compose.
  apply list_fmap_ext. by intros i [k p] _.
Qed.

Lemma state_dict_parts (m : CustomClassifier) :
  state_dict m =
  with_prefix "base_model." (tensors (base_parameters (base_model m))) ++ head_state_dict m.
Proof.
  unfold state_dict, head_state_dict, Sequential_state_dict, named_parameters, tensors.
  rewrite fmap_app. f_equal; apply tensors_with_prefix.
Qed.

Section NotebookProperties.

Variable tokenizer : string → string → nat → BatchEncoding.
Variable base_model_call :
  PreTrainedModel → bool → nat → tensor Z → tensor Z → result (list (list (list Q))).
Variable bernoulli : nat → nat → nat → bool.
Variable init_weight : nat → nat → Q.
Variable init_bias : nat → Q.
Variable randperm : nat → nat → list nat.
Variable cross_entropy : list (list Q) → tensor Z → result Q.
Variable gradient : CustomClassifier → nat → tensor Z → tensor Z → tensor Z → string → tensor Q.
Variable graph_leaves : PreTrainedModel → bool → nat → tensor Z → tensor Z → list string.
Variable AdamWState : Type.
Variable adamw_init : AdamWState.
Variable adamw_update : Q → AdamWState → string → tensor Q → tensor Q → tensor Q.
Variable adamw_next : AdamWState → AdamWState.

Local Abbreviation run_notebook :=
  (notebook tokenizer base_model_call bernoulli init_weight init_bias randperm
     cross_entropy gradient graph_leaves adamw_init adamw_update adamw_next).
Local Abbreviation train_cell :=
  (training_cell base_model_call bernoulli randperm cross_entropy gradient graph_leaves
     adamw_update adamw_next).
Local Abbreviation setup := (setup_cell init_weight init_bias adamw_init).

Lemma Linear_init_shaped (n_in n_out : nat) :
  Linear_shaped n_in n_out (Linear_init init_weight init_bias n_in n_out) = true.
Proof.
  unfold Linear_shaped, Linear_init. cbn [weight bias data nn_Parameter].
  apply andb_true_iff. split.
  - apply has_shape_matrix. eexists. split; [done|].
    rewrite length_fmap, length_seq. split; [done|].
    apply Forall_fmap, Forall_true. intros i. simpl. by rewrite length_fmap, length_seq.
  - apply has_shape_vector. eexists. split; [done|]. by rewrite length_fmap, length_seq.
Qed.

Lemma setup_cell_ready (base : PreTrainedModel) (seed : nat) :
  Forall (λ kp, requires_grad kp.2 = true) (base_parameters base) →
  ready_to_train (named_parameters (model (setup base seed))).*1 num_labels (setup base seed).
Proof.
  intros Hbase. repeat split.
  - eexists _, _. split; [done|]. apply Linear_init_shaped.
  - unfold setup_cell, CustomClassifier_init, named_parameters.
    cbn [model base_model classifier]. apply Forall_app. split.
    + unfold with_prefix. apply Forall_fmap. eapply Forall_impl; [exact Hbase|].
      by intros [k p].
    + by repeat constructor.
Qed.

(** C2, as amended. What the run leaves in the file is the state
    dictionary of the whole trained module: the tensors of the base
    model under [base_model.], followed by those of the head under
    [classifier.]. *)
Theorem notebook_saves_whole_state_dict (base : PreTrainedModel)
    (train validation : RawDataset) (seed : nat) (st : state AdamWState) (avg_accuracy : Q) :
  run_notebook base train validation seed = Ok (st, avg_accuracy) →
  ∃ train_loader trained,
    loader_cell tokenizer train true = Ok train_loader ∧
    train_cell train_loader (setup base seed) = Ok trained ∧
    files st !! "./my_custom_model_falcon.pt" = Some (state_dict (model trained)) ∧
    state_dict (model trained) =
      with_prefix "base_model." (tensors (base_parameters (base_model (model trained)))) ++
      head_state_dict (model trained).
Proof.
  unfold notebook. intros Hrun.
  apply bind_ok in Hrun as (train_loader & Htrain_loader & Hrun).
  apply bind_ok in Hrun as (eval_loader & Heval_loader & Hrun).
  apply bind_ok in Hrun as (trained & Htrain & Hrun).
  apply bind_ok in Hrun as ([evaluated acc] & Heval & [= <- _]).
  exists train_loader, trained. split; [done|]. split; [done|].
  split; [|apply state_dict_parts].
  unfold save_cell. cbn [files]. rewrite lookup_insert_eq.
  by rewrite (evaluation_cell_model _ _ _ _ _ _ _ _ Heval).
Qed.

End NotebookProperties.

(** ** The definitions at work on the stand-ins *)

Lemma toy_pad_to_length {A} (n : nat) (pad : A) (xs : list A) :
  length (Toy.pad_to n pad xs) = n.
Proof. unfold Toy.pad_to. rewrite length_app, length_take, length_replicate. lia. Qed.

Lemma toy_tokenizer_two_fields (n : nat) : tokenizer_two_fields Toy.tokenizer n.
Proof.
  intros s1 s2. eexists _, _. split; [reflexivity|].
  split; apply has_shape_matrix; eexists; (split; [reflexivity|]);
    (split; [done|]); repeat constructor; apply toy_pad_to_length.
Qed.

Lemma toy_base_model_shapes : base_model_shapes Toy.base_model_call.
Proof.
  intros base training rng input_ids attention_mask B L Hids _ _.
  apply has_shape_matrix in Hids as (ids & -> & HB & HL).
  unfold Toy.base_model_call. rewrite as_matrix_matrix. simpl. eexists. split; [done|].
  split; [by rewrite length_fmap|].
  apply Forall_fmap. eapply Forall_impl; [exact HL|]. intros row Hrow. simpl.
  split; [by rewrite length_fmap|].
  apply Forall_fmap, Forall_true. intros id. simpl. apply length_replicate.
Qed.

Lemma toy_embedding_shapes : base_model_shapes Toy.embedding_call.
Proof.
  intros base training rng input_ids attention_mask B L Hids _ _.
  apply has_shape_matrix in Hids as (ids & -> & HB & HL).
  unfold Toy.embedding_call. rewrite as_matrix_matrix. cbn [bind]. eexists. split; [done|].
  split; [by rewrite length_fmap|].
  apply Forall_fmap. eapply Forall_impl; [exact HL|]. intros row Hrow. simpl.
  split; [by rewrite length_fmap|].
  apply Forall_fmap, Forall_true. intros id. simpl. apply length_replicate.
Qed.

Lemma toy_encoder_reads_every_parameter : encoder_reads_every_parameter Toy.embedding_leaves.
Proof. by intros base training rng input_ids attention_mask name. Qed.

Lemma toy_cross_entropy_defined : cross_entropy_defined Toy.cross_entropy.
Proof. by intros logits labels ls C _ _ _ _. Qed.

Lemma toy_tensor_map_shape {A B} (f : A → B) (s : list nat) (t : tensor A) :
  has_shape s t = true → has_shape s (Toy.tensor_map f t) = true.
Proof.
  revert t. induction s as [|n s IH]; intros [a|ts]; simpl; try done.
  intros [Hlen Hall]%andb_true_iff. apply andb_true_iff.
  rewrite length_map. split; [done|].
  apply forallb_forall. intros t' (t & <- & Ht)%in_map_iff.
  apply IH. rewrite forallb_forall in Hall. auto.
Qed.

Lemma toy_adamw_keeps_shape : adamw_keeps_shape Toy.adamw_update.
Proof. intros lr o name d g s. apply toy_tensor_map_shape. Qed.

Lemma toy_randperm_permutes : randperm_permutes Toy.randperm.
Proof. intros rng n. unfold Toy.randperm. symmetry. apply Permutation_rev. Qed.

Lemma GlueDataset_fixed_length_example :
  ∃ item ids mask,
    GlueDataset_getitem (GlueDataset_init Toy.tokenizer Toy.mrpc 8) 2 = Ok item ∧
    item !! "input_ids" = Some ids ∧ has_shape [8] ids = true ∧
    item !! "attention_mask" = Some mask ∧ has_shape [8] mask = true.
Proof.
  refine (GlueDataset_fixed_length Toy.tokenizer Toy.mrpc 8 2 _ _ eq_refl).
  apply tokenizer_two_fields_pads, toy_tokenizer_two_fields.
Defined.

Lemma GlueDataset_len_and_labels_example :
  ∃ item, GlueDataset_getitem (GlueDataset_init Toy.tokenizer Toy.mrpc 8) 1 = Ok item ∧
          item !! "labels" = Some (Scalar 0%Z).
Proof.
  exact (proj2 (GlueDataset_len_and_labels Toy.tokenizer Toy.mrpc 8) 1 _ eq_refl).
Defined.

Lemma GlueDataset_getitem_out_of_range_example :
  GlueDataset_getitem (GlueDataset_init Toy.tokenizer Toy.mrpc 8) 3 = Raise IndexError.
Proof.
  apply GlueDataset_getitem_out_of_range. vm_compute. discriminate.
Defined.

Lemma GlueDataset_getitem_negative_example :
  ∃ item ex,
    GlueDataset_getitem (GlueDataset_init Toy.tokenizer Toy.mrpc 8) (-1) = Ok item ∧
    GlueDataset_getitem (GlueDataset_init Toy.tokenizer Toy.mrpc 8) 2 = Ok item ∧
    Toy.mrpc !! 2 = Some ex ∧
    item !! "labels" = Some (Scalar (label ex)).
Proof.
  refine (GlueDataset_getitem_negative Toy.tokenizer Toy.mrpc 8 (-1) _).
  vm_compute. split; [discriminate | reflexivity].
Defined.

Lemma forward_logits_shape_example :
  ∃ logits,
    CustomClassifier_forward Toy.base_model_call Toy.bernoulli (model Toy.start) 7
      (matrix [[1; 2; 3]; [4; 5; 6]]%Z) (matrix [[1; 1; 1]; [1; 1; 0]]%Z) = Ok logits ∧
    length logits = 2 ∧ Forall (λ row, length row = 2) logits ∧
    has_shape [2; 2] (matrix logits) = true.
Proof.
  refine (forward_logits_shape Toy.base_model_call Toy.bernoulli (model Toy.start) 2 7 2 3
            (matrix [[1; 2; 3]; [4; 5; 6]]%Z) (matrix [[1; 1; 1]; [1; 1; 0]]%Z)
            toy_base_model_shapes _ eq_refl eq_refl _); [|lia].
  eexists _, _. split; reflexivity.
Defined.

Lemma evaluation_accuracy_is_ratio_example :
  ∃ predictions st',
    predicted_labels Toy.base_model_call Toy.bernoulli (model Toy.start) (S (rng Toy.start))
      {| dataset := GlueDataset_init Toy.tokenizer Toy.mrpc 8; batch_size := 2;
         shuffle := false |} = Ok predictions ∧
    length predictions = 3 ∧
    evaluation_cell Toy.base_model_call Toy.bernoulli Toy.randperm
      {| dataset := GlueDataset_init Toy.tokenizer Toy.mrpc 8; batch_size := 2;
         shuffle := false |} Toy.start
    = Ok (st', (inject_Z (count_equal predictions (label <$> Toy.mrpc)) / inject_Z 3)%Q) ∧
    (0 <= inject_Z (count_equal predictions (label <$> Toy.mrpc)) / inject_Z 3 <= 1)%Q.
Proof.
  refine (evaluation_accuracy_is_ratio Toy.tokenizer Toy.base_model_call Toy.bernoulli
            Toy.randperm nat Toy.mrpc 8 2 2 Toy.start (toy_tokenizer_two_fields 8)
            toy_base_model_shapes _ _ _ _); [|lia|lia|simpl; lia].
  eexists _, _. split; reflexivity.
Defined.

Lemma evaluation_keeps_parameters_example :
  ∃ st' avg_accuracy,
    evaluation_cell Toy.base_model_call Toy.bernoulli Toy.randperm
      {| dataset := GlueDataset_init Toy.tokenizer Toy.mrpc 8; batch_size := 2;
         shuffle := false |} Toy.start = Ok (st', avg_accuracy) ∧
    model st' = set_training false (model Toy.start) ∧
    named_parameters (model st') = named_parameters (model Toy.start) ∧
    state_dict (model st') = state_dict (model Toy.start).
Proof.
  destruct (evaluation_cell Toy.base_model_call Toy.bernoulli Toy.randperm
              {| dataset := GlueDataset_init Toy.tokenizer Toy.mrpc 8; batch_size := 2;
                 shuffle := false |} Toy.start)
    as [[st' avg_accuracy]|e] eqn:Hrun.
  - exists st', avg_accuracy. split; [reflexivity|].
    exact (evaluation_keeps_parameters Toy.base_model_call Toy.bernoulli Toy.randperm nat
             _ _ _ _ Hrun).
  - vm_compute in Hrun. discriminate Hrun.
Defined.


Lemma notebook_saves_whole_state_dict_example :
  ∃ st avg_accuracy train_loader trained,
    Toy.run = Ok (st, avg_accuracy) ∧
    loader_cell Toy.tokenizer Toy.mrpc true = Ok train_loader ∧
    training_cell Toy.base_model_call Toy.bernoulli Toy.randperm Toy.cross_entropy
      Toy.gradient Toy.no_leaves Toy.adamw_update Toy.adamw_next
      train_loader Toy.start = Ok trained ∧
    files st !! "./my_custom_model_falcon.pt" = Some (state_dict (model trained)) ∧
    state_dict (model trained) =
      with_prefix "base_model." (tensors (base_parameters (base_model (model trained)))) ++
      head_state_dict (model trained).
Proof.
  destruct Toy.run as [[st avg_accuracy]|e] eqn:Hrun.
  - destruct (notebook_saves_whole_state_dict Toy.tokenizer Toy.base_model_call Toy.bernoulli
                Toy.init_weight Toy.init_bias Toy.randperm Toy.cross_entropy Toy.gradient
                Toy.no_leaves nat 0 Toy.adamw_update Toy.adamw_next Toy.base Toy.mrpc
                Toy.mrpc 7 st avg_accuracy Hrun) as (train_loader & trained & Htrained).
    exists st, avg_accuracy, train_loader, trained. split; [reflexivity | exact Htrained].
  - vm_compute in Hrun. discriminate Hrun.
Defined.

(** C2, as the claim states it, fails: after the run on the stand-ins
    the file holds three tensors, the first of them a tensor of the base
    model, while the head has two. *)
Lemma saved_artifact_is_not_the_head_alone :
  ∃ st avg_accuracy artifact,
    Toy.run = Ok (st, avg_accuracy) ∧
    files st !! "./my_custom_model_falcon.pt" = Some artifact ∧
    artifact.*1 =
      ["base_model.word_embeddings.weight"; "classifier.1.weight"; "classifier.1.bias"] ∧
    (head_state_dict (model st)).*1 = ["classifier.1.weight"; "classifier.1.bias"] ∧
    artifact ≠ head_state_dict (model st) ∧
    artifact ≠ Sequential_state_dict (classifier (model st)).
Proof.
  destruct Toy.run as [[st avg_accuracy]|e] eqn:Hrun; [|vm_compute in Hrun; discriminate Hrun].
  vm_compute in Hrun. injection Hrun as <- <-.
  eexists _, _, _. split; [reflexivity|]. split; [vm_compute; reflexivity|].
  split; [reflexivity|]. split; [reflexivity|].
  split; intros Heq; vm_compute in Heq; discriminate Heq.
Qed.

(** * Further properties *)

(** ** The dataset wrapper: indices and fields *)

Lemma list_getitem_below {A} (l : list A) (idx : Z) :
  (idx < - Z.of_nat (length l))%Z → list_getitem l idx = Raise IndexError.
Proof. intros Hlt. getitem_cases; done. Qed.

Lemma list_getitem_in_range {A} (l : list A) (idx : Z) :
  (- Z.of_nat (length l) ≤ idx < Z.of_nat (length l))%Z →
  ∃ a, list_getitem l idx = Ok a.
Proof.
  intros Hidx.
  assert (∃ i : nat, i < length l ∧ list_getitem l idx = list_getitem l (Z.of_nat i))
    as (i & Hi & ->).
  { destruct (Z.ltb_spec idx 0).
    - exists (Z.to_nat (Z.of_nat (length l) + idx)). split; [lia|].
      rewrite list_getitem_negative by lia. f_equal. lia.
    - exists (Z.to_nat idx). split; [lia|]. f_equal. lia. }
  destruct (lookup_lt_is_Some_2 l i Hi) as [a Ha]. exists a. by apply list_getitem_nat.
Qed.

Section DatasetExtras.

Variable tokenizer : string → string → nat → BatchEncoding.

Local Abbreviation tokenized := (tokenize tokenizer).
Local Abbreviation build := (GlueDataset_init tokenizer).

(** X1. Indexed access succeeds exactly for the indices from
    [-len(dataset)] to [len(dataset) - 1]; every other index, also one
    below [-len(dataset)], raises [IndexError]. *)
Theorem GlueDataset_getitem_valid_range (raw : RawDataset) (max_length : nat) (idx : Z) :
  let self := build raw max_length in
  let n := Z.of_nat (GlueDataset_len self) in
  ((- n ≤ idx < n)%Z → is_ok (GlueDataset_getitem self idx) = true) ∧
  (¬ (- n ≤ idx < n)%Z → GlueDataset_getitem self idx = Raise IndexError).
Proof.
  intros self n. subst self n. rewrite GlueDataset_init_len, GlueDataset_init_eq.
  unfold GlueDataset_getitem. cbn [inputs labels]. split; intros Hidx.
  - destruct (list_getitem_in_range (tokenized max_length <$> raw) idx) as [enc ->];
      [by rewrite length_fmap|].
    destruct (list_getitem_in_range (label <$> raw) idx) as [l ->];
      [by rewrite length_fmap|].
    done.
  - destruct (Z.ltb_spec idx (- Z.of_nat (length raw))).
    + by rewrite list_getitem_below by (rewrite length_fmap; lia).
    + by rewrite list_getitem_ge by (rewrite length_fmap; lia).
Qed.

(** X2. The constructor tokenizes every record once, in the order of
    the dataset and at the configured length, and keeps the labels in
    the same order, one per tokenized input. *)
Theorem GlueDataset_init_tokenizes_each_record (raw : RawDataset) (max_length : nat) :
  let self := build raw max_length in
  inputs self = (λ ex, tokenizer (sentence1 ex) (sentence2 ex) max_length) <$> raw ∧
  labels self = label <$> raw ∧
  length (inputs self) = length (labels self).
Proof.
  intros self. subst self. rewrite GlueDataset_init_eq. cbn [inputs labels].
  by rewrite !length_fmap.
Qed.

(** X3. A record has the fields of the tokenizer's output and
    ["labels"]: every other field is the tokenizer's tensor with its
    leading dimension of size one removed, and ["labels"] is the label
    of the dataset even when the tokenizer returned a field of that
    name. *)
Theorem GlueDataset_getitem_fields (raw : RawDataset) (max_length i : nat) (ex : example) :
  raw !! i = Some ex →
  ∃ item,
    GlueDataset_getitem (build raw max_length) (Z.of_nat i) = Ok item ∧
    dom item = {[ "labels" ]} ∪ dom (tokenized max_length ex) ∧
    item !! "labels" = Some (Scalar (label ex)) ∧
    ∀ key, key ≠ "labels" → item !! key = squeeze0 <$> tokenized max_length ex !! key.
Proof.
  intros Hi. eexists. split; [by apply GlueDataset_getitem_nat|].
  split; [|split].
  - by rewrite dom_insert_L, dom_fmap_L.
  - apply lookup_insert_eq.
  - intros key Hkey. by rewrite lookup_insert_ne, lookup_fmap.
Qed.

End DatasetExtras.

Lemma GlueDataset_getitem_fields_example :
  let ex := {| sentence1 := "a b"; sentence2 := "a b c"; label := 1 |} in
  ∃ item,
    GlueDataset_getitem (GlueDataset_init Toy.tokenizer Toy.mrpc 4) 0 = Ok item ∧
    dom item = {[ "labels" ]} ∪ dom (tokenize Toy.tokenizer 4 ex) ∧
    item !! "labels" = Some (Scalar 1%Z) ∧
    ∀ key, key ≠ "labels" → item !! key = squeeze0 <$> tokenize Toy.tokenizer 4 ex !! key.
Proof.
  exact (GlueDataset_getitem_fields Toy.tokenizer Toy.mrpc 4 0 _ eq_refl).
Defined.

(** ** The classification wrapper: failures and composition *)

Lemma traverse_first_raises {A B} (f : A → result B) (e : exn) (x : A) (xs : list A) :
  f x = Raise e → traverse f (x :: xs) = Raise e.
Proof. intros Hx. simpl. by rewrite Hx. Qed.

Lemma traverse_raises_same {A B} (f : A → result B) (e : exn) (xs : list A) :
  (∀ x e', f x = Raise e' → e' = e) →
  Exists (λ x, f x = Raise e) xs →
  traverse f xs = Raise e.
Proof.
  intros Hsame. induction 1 as [x xs Hx|x xs _ IH]; simpl.
  - by rewrite Hx.
  - destruct (f x) as [y|e'] eqn:Hfx; simpl; [by rewrite IH|].
    by rewrite (Hsame x e' Hfx).
Qed.

Lemma Linear_forward_rows (l : Linear) (n_in n_out : nat) (x y : list (list Q)) :
  Linear_shaped n_in n_out l = true →
  Linear_forward l x = Ok y →
  Forall (λ row, length row = n_out) y.
Proof.
  intros [HW Hb]%andb_true_iff.
  apply has_shape_matrix in HW as (W & HW & HWlen & _).
  apply has_shape_vector in Hb as (b & Hb & Hblen).
  unfold Linear_forward. rewrite HW, Hb, as_matrix_matrix, as_vector_vector. cbn [bind].
  intros Hy%traverse_Forall2.
  induction Hy as [|row out x y Hrow _ IH]; constructor; [|done].
  destruct (_ && _); [|done]. injection Hrow as <-.
  rewrite length_zip_with, length_fmap. lia.
Qed.

Lemma argmax_from_bound (best_i i : nat) (best : Q) (xs : list Q) :
  best_i < i → argmax_from best_i best i xs < i + length xs.
Proof.
  revert best_i best i. induction xs as [|x xs IH]; intros best_i best i Hlt; simpl; [lia|].
  destruct (Qle_bool x best).
  - specialize (IH best_i best (S i)). lia.
  - specialize (IH i x (S i)). lia.
Qed.

Lemma argmax_bound (row : list Q) (k : Z) :
  argmax row = Ok k → (0 ≤ k < Z.of_nat (length row))%Z.
Proof.
  destruct row as [|x xs]; [done|]. intros [= <-].
  pose proof (argmax_from_bound 0 1 x xs). simpl. lia.
Qed.

Lemma BatchSampler_sizes (batch_size : nat) (batch sampler : list nat) :
  length batch < batch_size →
  Forall (λ idxs, (1 ≤ length idxs ≤ batch_size)%nat) (BatchSampler batch_size batch sampler).
Proof.
  revert batch. induction sampler as [|idx rest IH]; intros batch Hlt; simpl.
  - destruct (Nat.ltb_spec 0 (length batch)); repeat constructor; lia.
  - rewrite length_app. simpl.
    destruct (Nat.eqb_spec (length batch + 1) batch_size) as [Heq|Hne].
    + constructor; [rewrite length_app; simpl; lia|]. apply IH. simpl. lia.
    + apply IH. rewrite length_app. simpl. lia.
Qed.

Lemma Forall2_and_Forall_r {A B} (P : A → B → Prop) (R : B → Prop)
    (l : list A) (k : list B) :
  Forall2 P l k → Forall R k → Forall2 (λ x y, P x y ∧ R y) l k.
Proof.
  induction 1 as [|x y l k Hxy _ IH]; intros Hk; [constructor|].
  apply Forall_cons in Hk as [Hy Hk]. constructor; auto.
Qed.

Section ClassifierExtras.

Variable tokenizer : string → string → nat → BatchEncoding.
Variable base_model_call :
  PreTrainedModel → bool → nat → tensor Z → tensor Z → result (list (list (list Q))).
Variable bernoulli : nat → nat → nat → bool.
Variable init_weight : nat → nat → Q.
Variable init_bias : nat → Q.

Local Abbreviation run_forward := (CustomClassifier_forward base_model_call bernoulli).
Local Abbreviation new_module := (CustomClassifier_init init_weight init_bias).
Local Abbreviation encoder_shapes := (base_model_shapes base_model_call).

(** X4. When the encoder returns hidden states in which some example
    has no position at all, selecting the first position raises
    [IndexError] and the forward pass returns no logits. *)
Theorem forward_without_first_position (self : CustomClassifier) (rng : nat)
    (input_ids attention_mask : tensor Z) (h : list (list (list Q))) :
  base_model_call (base_model self) (training self) rng input_ids attention_mask = Ok h →
  [] ∈ h →
  run_forward self rng input_ids attention_mask = Raise IndexError.
Proof.
  intros Hh Hempty. unfold CustomClassifier_forward. rewrite Hh. cbn [bind].
  rewrite (traverse_raises_same _ IndexError); [done| |].
  - intros hidden e. rewrite list_getitem_0. destruct hidden; [by intros [= <-] | done].
  - apply Exists_exists. exists []. done.
Qed.

(** X5. When the hidden states that the encoder returns do not have the
    width the head was built for, the linear layer refuses them: the
    forward pass raises [RuntimeError]. *)
Theorem forward_hidden_size_mismatch (self : CustomClassifier) (n_labels rng B L H : nat)
    (input_ids attention_mask : tensor Z) (h : list (list (list Q))) :
  classifier_for n_labels self →
  base_model_call (base_model self) (training self) rng input_ids attention_mask = Ok h →
  hidden_states B L H h →
  H ≠ config_hidden_size (base_model self) →
  0 < B → 0 < L → 0 < n_labels →
  run_forward self rng input_ids attention_mask = Raise RuntimeError.
Proof.
  intros (p & l & Hcls & [HW Hb]%andb_true_iff) Hh Hshape Hwidth HB HL Hlabels.
  unfold CustomClassifier_forward. rewrite Hh. cbn [bind].
  destruct (cls_token_state_shape _ _ _ h Hshape HL) as (pooled & -> & Hlen & Hpooled).
  cbn [bind]. rewrite Hcls. unfold Sequential_forward. cbn [for_each Layer_forward bind].
  destruct (Dropout_forward_shape bernoulli p (training self) rng _ pooled Hpooled)
    as [Hdlen Hdropped].
  destruct (Dropout_forward bernoulli p (training self) rng pooled) as [|row dropped];
    [simpl in Hdlen; lia|].
  apply has_shape_matrix in HW as (W & HW & HWlen & HWrows).
  apply has_shape_vector in Hb as (b & Hb & _).
  unfold Linear_forward. rewrite HW, Hb, as_matrix_matrix, as_vector_vector. cbn [bind].
  rewrite (traverse_first_raises _ RuntimeError); [done|].
  destruct W as [|w W]; [simpl in HWlen; lia|].
  apply Forall_cons in HWrows as [Hw _]. apply Forall_cons in Hdropped as [Hrow _].
  cbn [forallb]. rewrite Hw, Hrow.
  by destruct (Nat.eqb_spec (config_hidden_size (base_model self)) H) as [<-|_].
Qed.

(** X6. The pieces fit: every batch that a loader over the wrapper
    yields is accepted by a newly built module for [num_labels] labels,
    which returns exactly one row of two logits for each example of
    the batch: as many rows as the batch has labels and rows of ids,
    between 1 and [batch_size] of them. *)
Theorem new_module_accepts_every_batch (base : PreTrainedModel) (raw : RawDataset)
    (max_length bs rng : nat) (sh : bool) (order : list nat) :
  tokenizer_two_fields tokenizer max_length →
  encoder_shapes →
  0 < max_length → 0 < bs →
  Forall (λ i, i < length raw) order →
  Forall2
    (λ fetched idxs, ∃ batch input_ids attention_mask logits,
       fetched = Ok batch ∧
       batch !! "input_ids" = Some input_ids ∧
       batch !! "attention_mask" = Some attention_mask ∧
       batch !! "labels" = Some (vector (label_at raw <$> idxs)) ∧
       has_shape [length idxs; max_length] input_ids = true ∧
       run_forward (new_module base num_labels) rng input_ids attention_mask = Ok logits ∧
       length logits = length idxs ∧
       (1 ≤ length idxs ≤ bs)%nat ∧
       Forall (λ row, length row = 2) logits)
    (DataLoader_iter
       {| dataset := GlueDataset_init tokenizer raw max_length; batch_size := bs;
          shuffle := sh |} order)
    (BatchSampler bs [] order).
Proof.
  intros Htok Hbase Hlen Hbs Horder.
  pose proof (DataLoader_iter_fields tokenizer raw max_length bs sh order Htok Horder) as Hiter.
  pose proof (BatchSampler_sizes bs [] order Hbs) as Hsizes.
  eapply Forall2_impl; [exact (Forall2_and_Forall_r _ _ _ _ Hiter Hsizes)|].
  intros fetched idxs [[(batch & -> & idss & masks & Hids & Hmask & Hls & Hilen & Hirows
                          & Hmlen & Hmrows) _] Hsize].
  rewrite length_fmap in Hilen, Hmlen.
  assert (Hshape : has_shape [length idxs; max_length] (matrix idss) = true).
  { apply has_shape_matrix. eauto. }
  destruct (forward_shape base_model_call bernoulli (new_module base num_labels) num_labels rng
              (length idxs) max_length (matrix idss) (matrix masks) Hbase)
    as (logits & Hlogits & Hllen & Hrows); [|done| |done|].
  { eexists _, _. split; [done|]. apply Linear_init_shaped. }
  { apply has_shape_matrix. eauto. }
  exists batch, (matrix idss), (matrix masks), logits.
  repeat split; try done; lia.
Qed.

(** X7. With the head that [__init__] builds for [n_labels] labels,
    every predicted label is a class index: at least 0 and below
    [n_labels]. *)
Theorem predicted_labels_are_class_indices (m : CustomClassifier) (n_labels rng : nat)
    (loader : DataLoader) (predictions : list Z) :
  classifier_for n_labels m →
  predicted_labels base_model_call bernoulli m rng loader = Ok predictions →
  Forall (λ p, (0 ≤ p < Z.of_nat n_labels)%Z) predictions.
Proof.
  intros (p & l & Hcls & Hl) Hrun. unfold predicted_labels in Hrun.
  apply bind_ok in Hrun as (per_batch & Hbatches & [= <-]).
  apply traverse_Forall2 in Hbatches.
  induction Hbatches as [|fetched preds fs pss Hfetched _ IH]; [constructor|].
  cbn [concat]. apply Forall_app. split; [clear IH|done].
  apply bind_ok in Hfetched as (batch & _ & Hpred). unfold predict_batch in Hpred.
  apply bind_ok in Hpred as (ids & _ & Hpred).
  apply bind_ok in Hpred as (mask & _ & Hpred).
  apply bind_ok in Hpred as (logits & Hlogits & Hargmax).
  unfold CustomClassifier_forward in Hlogits.
  apply bind_ok in Hlogits as (h & _ & Hlogits).
  apply bind_ok in Hlogits as (pooled & _ & Hlogits).
  apply bind_ok in Hlogits as (out & Hout & [= <-]).
  cbn [classifier set_training] in Hout. rewrite Hcls in Hout.
  unfold Sequential_forward in Hout. cbn [for_each Layer_forward bind] in Hout.
  apply bind_ok in Hout as (logits & Hlinear & [= <-]).
  pose proof (Linear_forward_rows l _ n_labels _ _ Hl Hlinear) as Hrows.
  apply traverse_Forall2 in Hargmax.
  clear Hlinear. induction Hargmax as [|row k rows ks Hk _ IHrows]; [constructor|].
  apply Forall_cons in Hrows as [Hrow Hrest].
  constructor; [|by apply IHrows]. apply argmax_bound in Hk. by rewrite Hrow in Hk.
Qed.

End ClassifierExtras.

(** ** The training cell: what a batch and the whole cell do to the state *)

Lemma dict_getitem_ok {V} (d : gmap string V) (key : string) (v : V) :
  dict_getitem d key = Ok v → d !! key = Some v.
Proof. unfold dict_getitem. destruct (d !! key); by intros [= <-]. Qed.

Lemma BatchSampler_count (batch_size : nat) (batch sampler : list nat) :
  length batch < batch_size →
  length (BatchSampler batch_size batch sampler) =
  (length batch + length sampler + batch_size - 1) / batch_size.
Proof.
  revert batch. induction sampler as [|idx rest IH]; intros batch Hlt; simpl.
  - destruct (Nat.ltb_spec 0 (length batch)); simpl.
    + apply (Nat.div_unique _ _ 1 (length batch - 1)); lia.
    + symmetry. apply Nat.div_small. lia.
  - rewrite length_app. simpl.
    destruct (Nat.eqb_spec (length batch + 1) batch_size) as [Heq|Hne]; simpl.
    + rewrite IH by (simpl; lia). simpl.
      replace (length batch + S (length rest) + batch_size - 1)
        with (1 * batch_size + (length rest + batch_size - 1)) by lia.
      rewrite Nat.div_add_l by lia. lia.
    + rewrite IH by (rewrite length_app; simpl; lia). rewrite length_app. simpl.
      f_equal. lia.
Qed.

Section TrainingExtras.

Variable tokenizer : string → string → nat → BatchEncoding.
Variable base_model_call :
  PreTrainedModel → bool → nat → tensor Z → tensor Z → result (list (list (list Q))).
Variable bernoulli : nat → nat → nat → bool.
Variable randperm : nat → nat → list nat.
Variable cross_entropy : list (list Q) → tensor Z → result Q.
Variable gradient : CustomClassifier → nat → tensor Z → tensor Z → tensor Z → string → tensor Q.
Variable graph_leaves : PreTrainedModel → bool → nat → tensor Z → tensor Z → list string.
Variable AdamWState : Type.
Variable adamw_update : Q → AdamWState → string → tensor Q → tensor Q → tensor Q.
Variable adamw_next : AdamWState → AdamWState.

Local Abbreviation State := (state AdamWState).
Local Abbreviation one_batch :=
  (train_batch base_model_call bernoulli cross_entropy gradient graph_leaves
     adamw_update adamw_next).
Local Abbreviation one_epoch :=
  (train_epoch base_model_call bernoulli randperm cross_entropy gradient graph_leaves
     adamw_update adamw_next).
Local Abbreviation whole_training :=
  (training_cell base_model_call bernoulli randperm cross_entropy gradient graph_leaves
     adamw_update adamw_next).
Local Abbreviation take_step := (step adamw_update adamw_next).
Local Abbreviation graph_of := (forward_graph graph_leaves).

(** A call of [backward] that returns has reached a parameter. *)
Lemma backward_ok (graph : list string) (g : string → tensor Q) (st st' : State) :
  backward graph g st = Ok st' →
  reached_by_backward graph (model st) ≠ [] ∧
  st' = emit (EvBackward (reached_by_backward graph (model st)))
          (set_model
             (update_parameters
                (λ name p,
                   if requires_grad p && bool_decide (name ∈ graph)
                   then set_grad (Some (accumulate (grad p) (g name))) p
                   else p)
                (model st))
             st).
Proof.
  unfold backward. destruct (reached_by_backward graph (model st)) as [|name reached];
    [discriminate|].
  by intros [= <-].
Qed.

(** What a batch that is trained on without an exception leaves: the
    state after the five calls, for the fields of the batch. *)
Lemma train_batch_ok (st st' : State) (batch : BatchEncoding) :
  one_batch st batch = Ok st' →
  ∃ input_ids attention_mask labels after_backward,
    batch !! "input_ids" = Some input_ids ∧
    batch !! "attention_mask" = Some attention_mask ∧
    batch !! "labels" = Some labels ∧
    backward
      (graph_of (model (zero_grad st)) (rng st) input_ids attention_mask)
      (gradient (model (zero_grad st)) (rng st) input_ids attention_mask labels)
      (emit EvCrossEntropy
         (emit EvForward
            (set_rng (if training (model st) then S (rng st) else rng st)
               (zero_grad st)))) = Ok after_backward ∧
    st' = take_step after_backward.
Proof.
  unfold train_batch. intros Hrun.
  apply bind_ok in Hrun as (ids & Hids%dict_getitem_ok & Hrun).
  apply bind_ok in Hrun as (mask & Hmask%dict_getitem_ok & Hrun).
  apply bind_ok in Hrun as (labels & Hlabels%dict_getitem_ok & Hrun).
  apply bind_ok in Hrun as ([st1 logits] & Hcall & Hrun).
  apply bind_ok in Hrun as (loss & _ & Hrun).
  apply bind_ok in Hrun as (after_backward & Hback & [= <-]).
  unfold model_call in Hcall. apply bind_ok in Hcall as (logits' & _ & [= <- _]).
  by exists ids, mask, labels, after_backward.
Qed.


(** What the training cell leaves alone, whatever the data: a batch, an
    epoch and the whole cell. *)
Lemma train_batch_frame (st st' : State) (batch : BatchEncoding) :
  one_batch st batch = Ok st' →
  files st' = files st ∧
  param_group (optimizer st') = param_group (optimizer st) ∧
  lr (optimizer st') = lr (optimizer st) ∧
  moments (optimizer st') = adamw_next (moments (optimizer st)) ∧
  training (model st') = training (model st) ∧
  (named_parameters (model st')).*1 = (named_parameters (model st)).*1.
Proof.
  intros (ids & mask & ls & sb & _ & _ & _ & [_ ->]%backward_ok & ->)%train_batch_ok.
  unfold step, zero_grad.
  cbn [model optimizer emit set_model set_rng param_group lr moments files].
  rewrite !named_parameters_update, !apply_named_names. done.
Qed.

Lemma train_loop_frame (fetched : list (result BatchEncoding)) (st st' : State) :
  for_each (λ st f, let* batch := f in one_batch st batch) fetched st = Ok st' →
  files st' = files st ∧
  param_group (optimizer st') = param_group (optimizer st) ∧
  lr (optimizer st') = lr (optimizer st) ∧
  moments (optimizer st') = Nat.iter (length fetched) adamw_next (moments (optimizer st)) ∧
  training (model st') = training (model st) ∧
  (named_parameters (model st')).*1 = (named_parameters (model st)).*1.
Proof.
  revert st. induction fetched as [|f fetched IH]; intros st; simpl.
  - by intros [= <-].
  - intros (st1 & Hstep & Hrest)%bind_ok.
    apply bind_ok in Hstep as (batch & _ & Hstep).
    apply train_batch_frame in Hstep as (Hf1 & Hg1 & Hl1 & Hm1 & Ht1 & Hn1).
    apply IH in Hrest as (Hf & Hg & Hl & Hm & Ht & Hn).
    rewrite Hf, Hg, Hl, Hm, Ht, Hn, Hf1, Hg1, Hl1, Hm1, Ht1, Hn1.
    repeat split. by rewrite <- Nat.iter_succ_r.
Qed.

Lemma train_epoch_frame (loader : DataLoader) (st st' : State) (epoch : nat) :
  one_epoch loader st epoch = Ok st' →
  files st' = files st ∧
  param_group (optimizer st') = param_group (optimizer st) ∧
  lr (optimizer st') = lr (optimizer st) ∧
  moments (optimizer st') =
    Nat.iter (length (DataLoader_start randperm (model_train st) loader).2) adamw_next
      (moments (optimizer st)) ∧
  training (model st') = true ∧
  (named_parameters (model st')).*1 = (named_parameters (model st)).*1.
Proof.
  unfold train_epoch.
  destruct (DataLoader_start randperm (model_train st) loader) as [st0 batches] eqn:Hstart.
  intros (st1 & Hloop & [= <-])%bind_ok.
  apply train_loop_frame in Hloop as (Hf & Hg & Hl & Hm & Ht & Hn).
  assert (Hst0 : files st0 = files st ∧ optimizer st0 = optimizer st ∧
                 model st0 = set_training true (model st)).
  { unfold DataLoader_start in Hstart. cbn zeta in Hstart.
    by destruct (shuffle loader); injection Hstart as <- _. }
  destruct Hst0 as (Hf0 & Ho0 & Hm0).
  cbn [files optimizer model emit snd].
  rewrite Hf, Hg, Hl, Hm, Ht, Hn, Hf0, Ho0, Hm0. done.
Qed.

Lemma DataLoader_start_count (loader : DataLoader) (st : State) :
  randperm_permutes randperm → 0 < batch_size loader →
  length (DataLoader_start randperm st loader).2 =
  (GlueDataset_len (dataset loader) + batch_size loader - 1) / batch_size loader.
Proof.
  intros Hperm Hbs. unfold DataLoader_start, DataLoader_iter. cbn zeta.
  destruct (shuffle loader); cbn [snd]; rewrite length_fmap, BatchSampler_count by done;
    cbn [length]; [rewrite (Hperm _ (GlueDataset_len (dataset loader)))|];
    by rewrite length_seq.
Qed.

Lemma train_epochs_frame (loader : DataLoader) (epochs : list nat) (st st' : State) :
  for_each (one_epoch loader) epochs st = Ok st' →
  files st' = files st ∧
  param_group (optimizer st') = param_group (optimizer st) ∧
  lr (optimizer st') = lr (optimizer st) ∧
  (epochs ≠ [] → training (model st') = true) ∧
  (named_parameters (model st')).*1 = (named_parameters (model st)).*1.
Proof.
  revert st. induction epochs as [|epoch epochs IH]; intros st; simpl.
  - by intros [= <-].
  - intros (st1 & Hepoch & Hrest)%bind_ok.
    apply train_epoch_frame in Hepoch as (Hf1 & Hg1 & Hl1 & _ & Ht1 & Hn1).
    destruct epochs as [|epoch' epochs].
    + injection Hrest as <-. by rewrite Hf1, Hg1, Hl1, Hn1.
    + apply IH in Hrest as (Hf & Hg & Hl & Ht & Hn).
      rewrite Hf, Hg, Hl, Hn, Hf1, Hg1, Hl1, Hn1. repeat split. intros _. by apply Ht.
Qed.

Lemma train_epochs_steps (loader : DataLoader) (k : nat) (epochs : list nat) (st st' : State) :
  (∀ s : State, length (DataLoader_start randperm s loader).2 = k) →
  for_each (one_epoch loader) epochs st = Ok st' →
  moments (optimizer st') = Nat.iter (length epochs * k) adamw_next (moments (optimizer st)).
Proof.
  intros Hk. revert st. induction epochs as [|epoch epochs IH]; intros st; simpl.
  - by intros [= <-].
  - intros (st1 & Hepoch & Hrest)%bind_ok.
    apply train_epoch_frame in Hepoch as (_ & _ & _ & Hm1 & _).
    rewrite Hk in Hm1. apply IH in Hrest. rewrite Hrest, Hm1.
    by rewrite (Nat.add_comm k), Nat.iter_add.
Qed.

(** X9. The training cell writes no file (there is no checkpoint), it
    leaves the learning rate and the parameter group of the optimizer
    as they were (there is no schedule), and it ends with the module in
    training mode. *)
Theorem training_cell_writes_no_file (loader : DataLoader) (st st' : State) :
  whole_training loader st = Ok st' →
  files st' = files st ∧
  lr (optimizer st') = lr (optimizer st) ∧
  param_group (optimizer st') = param_group (optimizer st) ∧
  training (model st') = true.
Proof.
  intros (Hf & Hg & Hl & Ht & _)%train_epochs_frame.
  repeat split; try done. by apply Ht.
Qed.

(** X10. The training cell takes one optimizer step per batch and
    epoch: with [n] examples and a batch size of [b], the state of the
    optimizer has advanced [3 * ceil(n / b)] times when the cell ends. *)
Theorem training_cell_step_count (loader : DataLoader) (st st' : State) :
  randperm_permutes randperm →
  0 < batch_size loader →
  whole_training loader st = Ok st' →
  moments (optimizer st') =
  Nat.iter
    (3 * ((GlueDataset_len (dataset loader) + batch_size loader - 1) / batch_size loader))
    adamw_next (moments (optimizer st)).
Proof.
  intros Hperm Hbs Hrun.
  by apply (train_epochs_steps loader _ (seq 0 num_epochs) st st'
              (λ s, DataLoader_start_count loader s Hperm Hbs)) in Hrun.
Qed.

End TrainingExtras.

(** ** The evaluation cell: its calls, its edge and its randomness *)

Lemma for_each_ext_invariant {S A} (P : S → Prop) (body body' : S → A → result S)
    (xs : list A) (s : S) :
  (∀ s x, P s → body' s x = body s x) →
  (∀ s x s', P s → body s x = Ok s' → P s') →
  P s → for_each body' xs s = for_each body xs s.
Proof.
  intros Hext Hkeep. revert s. induction xs as [|x xs IH]; intros s Hs; simpl; [done|].
  rewrite (Hext s x Hs). destruct (body s x) as [s'|e] eqn:Hbody; simpl; [|done].
  apply IH. by eapply Hkeep.
Qed.

Lemma for_each_ext {S A} (body body' : S → A → result S) (xs : list A) (s : S) :
  (∀ s x, body' s x = body s x) → for_each body' xs s = for_each body xs s.
Proof.
  intros Hext. apply (for_each_ext_invariant (λ _, True)); auto.
Qed.

Section EvaluationExtras.

Variable tokenizer : string → string → nat → BatchEncoding.
Variable base_model_call :
  PreTrainedModel → bool → nat → tensor Z → tensor Z → result (list (list (list Q))).
Variable bernoulli bernoulli' : nat → nat → nat → bool.
Variable randperm : nat → nat → list nat.
Variable AdamWState : Type.

Local Abbreviation State := (state AdamWState).
Local Abbreviation evaluate := (evaluation_cell base_model_call bernoulli randperm).
Local Abbreviation evaluate' := (evaluation_cell base_model_call bernoulli' randperm).
Local Abbreviation eval_step := (eval_batch base_model_call bernoulli).

(** X12. On a dataset without examples the evaluation cell raises
    [ZeroDivisionError]: the loop has nothing to do and the count 0 is
    divided by the size 0. No accuracy is reported. *)
Theorem evaluation_on_empty_dataset (eval_loader : DataLoader) (st : State) :
  GlueDataset_len (dataset eval_loader) = 0 →
  shuffle eval_loader = false →
  evaluate eval_loader st = Raise ZeroDivisionError.
Proof.
  intros Hlen Hshuffle.
  unfold evaluation_cell, DataLoader_start, DataLoader_iter. by rewrite Hshuffle, Hlen.
Qed.

Lemma eval_batch_ok (st st' : State) (total total' : Z) (batch : BatchEncoding) :
  training (model st) = false →
  eval_step (st, total) batch = Ok (st', total') →
  st' = emit EvForward st.
Proof.
  intros Hmode Hrun. unfold eval_batch in Hrun.
  apply bind_ok in Hrun as (ids & _ & Hrun).
  apply bind_ok in Hrun as (mask & _ & Hrun).
  apply bind_ok in Hrun as (ls & _ & Hrun).
  apply bind_ok in Hrun as ([s1 logits] & Hcall & Hrun).
  apply bind_ok in Hrun as (predictions & _ & Hrun).
  apply bind_ok in Hrun as (correct & _ & [= <- _]).
  unfold model_call in Hcall. apply bind_ok in Hcall as (logits' & _ & [= <- _]).
  rewrite Hmode. by destruct st.
Qed.

Lemma eval_loop_ok (fetched : list (result BatchEncoding)) (st st' : State) (total total' : Z) :
  training (model st) = false →
  for_each (λ acc f, let* batch := f in eval_step acc batch) fetched (st, total)
  = Ok (st', total') →
  st' = Nat.iter (length fetched) (emit EvForward) st.
Proof.
  revert st total. induction fetched as [|f fetched IH]; intros st total Hmode; simpl.
  - by intros [= <- _].
  - intros ([st1 total1] & Hstep & Hrest)%bind_ok.
    apply bind_ok in Hstep as (batch & _ & Hstep).
    apply eval_batch_ok in Hstep as ->; [|done].
    apply IH in Hrest as ->; [|done]. by rewrite <- Nat.iter_succ_r.
Qed.

Lemma log_iter_emit (ev : event) (k : nat) (st : State) :
  log (Nat.iter k (emit ev) st) = log st ++ replicate k ev ∧
  model (Nat.iter k (emit ev) st) = model st ∧
  optimizer (Nat.iter k (emit ev) st) = optimizer st ∧
  rng (Nat.iter k (emit ev) st) = rng st ∧
  files (Nat.iter k (emit ev) st) = files st.
Proof.
  induction k as [|k (Hl & Hm & Ho & Hr & Hf)]; simpl.
  - by rewrite app_nil_r.
  - rewrite Hl, Hm, Ho, Hr, Hf. repeat split.
    rewrite <- app_assoc. f_equal.
    change (replicate k ev ++ [ev] = replicate (S k) ev).
    by rewrite replicate_S_end.
Qed.

(** X13. The evaluation cell calls nothing that could train: after the
    switch to evaluation mode it makes one forward call per batch and
    prints the accuracy, and it leaves the optimizer and the files as
    they were. Of the random generator it takes exactly one draw, the
    base seed of the loader's iterator: the forward passes draw
    nothing. *)
Theorem evaluation_cell_only_forwards (eval_loader : DataLoader) (st st' : State)
    (avg_accuracy : Q) :
  shuffle eval_loader = false →
  evaluate eval_loader st = Ok (st', avg_accuracy) →
  let batches :=
    length (BatchSampler (batch_size eval_loader) []
              (seq 0 (GlueDataset_len (dataset eval_loader)))) in
  log st' = log st ++ EvEvalMode :: replicate batches EvForward
                   ++ [EvPrintAccuracy avg_accuracy] ∧
  optimizer st' = optimizer st ∧
  rng st' = S (rng st) ∧
  files st' = files st.
Proof.
  intros Hshuffle Hrun batches. unfold evaluation_cell, DataLoader_start in Hrun.
  cbn zeta in Hrun. rewrite Hshuffle in Hrun.
  apply bind_ok in Hrun as ([st1 total] & Hloop & Hrun).
  apply bind_ok in Hrun as (avg & _ & [= <- <-]).
  apply eval_loop_ok in Hloop as ->; [|done].
  unfold DataLoader_iter. rewrite length_fmap. fold batches.
  destruct (log_iter_emit EvForward batches
              (set_rng (S (rng (model_eval st))) (model_eval st)))
    as (Hl & _ & Ho & Hr & Hf).
  cbn [log optimizer rng files emit]. rewrite Hl, Ho, Hr, Hf.
  cbn [log optimizer rng files emit model_eval set_model set_rng].
  by rewrite <- !app_assoc.
Qed.

Lemma forward_eval_ignores_draws (m : CustomClassifier) (rng : nat)
    (input_ids attention_mask : tensor Z) :
  training m = false →
  CustomClassifier_forward base_model_call bernoulli' m rng input_ids attention_mask =
  CustomClassifier_forward base_model_call bernoulli m rng input_ids attention_mask.
Proof.
  intros Hmode. unfold CustomClassifier_forward. rewrite Hmode.
  destruct (base_model_call _ _ _ _ _) as [h|e]; [cbn [bind]|done].
  destruct (traverse _ h) as [pooled|e]; [cbn [bind]|done].
  unfold Sequential_forward.
  by rewrite (for_each_ext (Layer_forward bernoulli false rng)
                (Layer_forward bernoulli' false rng)) by (by intros x [p|l]).
Qed.

(** X14. In evaluation mode the dropout layer draws nothing: the
    evaluation cell returns the same state and the same accuracy
    whatever the random draws of dropout would be. *)
Theorem evaluation_ignores_dropout_draws (eval_loader : DataLoader) (st : State) :
  evaluate' eval_loader st = evaluate eval_loader st.
Proof.
  unfold evaluation_cell.
  destruct (DataLoader_start randperm (model_eval st) eval_loader) as [st0 batches] eqn:Hstart.
  assert (Hmode : training (model st0) = false).
  { unfold DataLoader_start in Hstart. cbn zeta in Hstart.
    by destruct (shuffle eval_loader); injection Hstart as <- _. }
  rewrite (for_each_ext_invariant (λ acc : State * Z, training (model acc.1) = false)
             (λ acc f, let* batch := f in eval_step acc batch)); [done| | |done].
  - intros [s total] [batch|e] Hs; [|done]. cbn [bind]. unfold eval_batch, model_call.
    destruct (dict_getitem batch "input_ids"); [cbn [bind]|done].
    destruct (dict_getitem batch "attention_mask"); [cbn [bind]|done].
    destruct (dict_getitem batch "labels"); [cbn [bind]|done].
    by rewrite forward_eval_ignores_draws.
  - intros [s total] [batch|e] [s' total'] Hs Hstep; [|done].
    apply eval_batch_ok in Hstep as ->; done.
Qed.

End EvaluationExtras.

(** ** The loader, the saved names and the whole notebook *)

Lemma tensors_names (ps : list (string * Param)) : (tensors ps).*1 = ps.*1.
Proof.
  unfold tensors. rewrite <- list_fmap_compose. apply list_fmap_ext. by intros i [k p] _.
Qed.

Lemma prefixed_names_NoDup (prefix : string) (names : list string) :
  NoDup names → NoDup ((λ k, prefix +:+ k) <$> names).
Proof.
  induction 1 as [|k names Hk _ IH]; [constructor|]. rewrite fmap_cons. constructor; [|done].
  intros (k' & Heq & Hk')%list_elem_of_fmap.
  assert (k = k') as ->; [|done].
  clear -Heq. induction prefix as [|c prefix IH]; [done|]. injection Heq as Heq. auto.
Qed.

Section NotebookExtras.

Variable tokenizer : string → string → nat → BatchEncoding.
Variable base_model_call :
  PreTrainedModel → bool → nat → tensor Z → tensor Z → result (list (list (list Q))).
Variable bernoulli : nat → nat → nat → bool.
Variable init_weight : nat → nat → Q.
Variable init_bias : nat → Q.
Variable randperm : nat → nat → list nat.
Variable cross_entropy : list (list Q) → tensor Z → result Q.
Variable gradient : CustomClassifier → nat → tensor Z → tensor Z → tensor Z → string → tensor Q.
Variable graph_leaves : PreTrainedModel → bool → nat → tensor Z → tensor Z → list string.
Variable AdamWState : Type.
Variable adamw_init : AdamWState.
Variable adamw_update : Q → AdamWState → string → tensor Q → tensor Q → tensor Q.
Variable adamw_next : AdamWState → AdamWState.

Local Abbreviation State := (state AdamWState).
Local Abbreviation whole_run :=
  (notebook tokenizer base_model_call bernoulli init_weight init_bias randperm
     cross_entropy gradient graph_leaves adamw_init adamw_update adamw_next).
Local Abbreviation first_state := (setup_cell init_weight init_bias adamw_init).
Local Abbreviation new_module := (CustomClassifier_init init_weight init_bias).

(** X15. With shuffling, an epoch is still one full pass: the labels of
    the batches that the loader yields, taken together, are the labels
    of the dataset in some order, each example once. *)
Theorem shuffled_epoch_is_full_pass (raw : RawDataset) (max_length bs : nat) (st : State) :
  tokenizer_two_fields tokenizer max_length →
  randperm_permutes randperm →
  let train_loader :=
    {| dataset := GlueDataset_init tokenizer raw max_length; batch_size := bs;
       shuffle := true |} in
  ∃ lss,
    Forall2 (λ fetched ls, ∃ batch, fetched = Ok batch ∧ batch !! "labels" = Some (vector ls))
      (DataLoader_start randperm st train_loader).2 lss ∧
    concat lss ≡ₚ label <$> raw.
Proof.
  intros Htok Hperm train_loader. unfold DataLoader_start. cbn zeta.
  cbn [shuffle train_loader snd dataset].
  rewrite GlueDataset_init_len. set (order := randperm _ (length raw)).
  assert (Horder : Forall (λ i, i < length raw) order).
  { unfold order. rewrite (Hperm _ (length raw)).
    apply Forall_forall. intros i ?%elem_of_seq. lia. }
  pose proof (DataLoader_iter_fields tokenizer raw max_length bs true order Htok Horder)
    as Hiter.
  exists ((λ idxs : list nat, label_at raw <$> idxs) <$> BatchSampler bs [] order). split.
  - apply Forall2_fmap_r. eapply Forall2_impl; [exact Hiter|].
    intros f idxs [(batch & -> & idss & masks & _ & _ & Hls & _) _]. by exists batch.
  - rewrite concat_fmap, BatchSampler_concat, app_nil_l. unfold order.
    by rewrite (Hperm _ (length raw)), label_at_seq.
Qed.

(** X16. The names under which a parameter is registered are pairwise
    distinct whenever those of the base model are: the prefixes
    [base_model.] and [classifier.] keep the two groups apart, so no
    entry of the state dictionary hides another. *)
Theorem named_parameters_are_distinct (base : PreTrainedModel) (n_labels : nat) :
  NoDup (base_parameters base).*1 →
  NoDup (state_dict (new_module base n_labels)).*1.
Proof.
  intros Hbase. unfold state_dict, named_parameters. rewrite tensors_names, fmap_app.
  apply NoDup_app. split; [|split].
  - rewrite with_prefix_names. by apply prefixed_names_NoDup.
  - intros name. rewrite !with_prefix_names.
    intros [k [-> Hk]]%list_elem_of_fmap [k' [Heq Hk']]%list_elem_of_fmap. discriminate Heq.
  - cbn [new_module CustomClassifier_init classifier]. vm_compute.
    apply NoDup_cons. split; [|apply NoDup_singleton].
    rewrite list_elem_of_singleton. discriminate.
Qed.

Lemma new_module_names (base : PreTrainedModel) (n_labels : nat) :
  (named_parameters (new_module base n_labels)).*1 =
  (with_prefix "base_model." (base_parameters base)).*1 ++
  ["classifier.1.weight"; "classifier.1.bias"].
Proof. unfold named_parameters. rewrite fmap_app. f_equal. Qed.

Lemma evaluation_cell_optimizer (eval_loader : DataLoader) (st st' : State) (avg : Q) :
  evaluation_cell base_model_call bernoulli randperm eval_loader st = Ok (st', avg) →
  optimizer st' = optimizer st.
Proof.
  unfold evaluation_cell. intros Hrun.
  destruct (DataLoader_start randperm (model_eval st) eval_loader) as [st0 batches] eqn:Hstart.
  assert (Hst0 : training (model st0) = false ∧ optimizer st0 = optimizer st).
  { unfold DataLoader_start in Hstart. cbn zeta in Hstart.
    by destruct (shuffle eval_loader); injection Hstart as <- _. }
  apply bind_ok in Hrun as ([st1 total] & Hloop & Hrun).
  apply bind_ok in Hrun as (avg' & _ & [= <- _]).
  apply eval_loop_ok in Hloop as ->; [|apply Hst0].
  destruct (log_iter_emit AdamWState EvForward (length batches) st0) as (_ & _ & Ho & _).
  cbn [optimizer emit]. rewrite Ho. apply Hst0.
Qed.

(** X17. The file that the run leaves names exactly the parameters
    that the optimizer was given: those of the base model as it was
    loaded, under [base_model.], and the weight and the bias of the
    head. Everything that is saved was under training. *)
Theorem notebook_saves_what_it_trains (base : PreTrainedModel)
    (train validation : RawDataset) (seed : nat) (st : State) (avg_accuracy : Q) :
  whole_run base train validation seed = Ok (st, avg_accuracy) →
  ∃ artifact,
    files st !! "./my_custom_model_falcon.pt" = Some artifact ∧
    artifact.*1 = (with_prefix "base_model." (base_parameters base)).*1 ++
                  ["classifier.1.weight"; "classifier.1.bias"] ∧
    param_group (optimizer st) = artifact.*1.
Proof.
  unfold notebook. intros Hrun.
  apply bind_ok in Hrun as (train_loader & _ & Hrun).
  apply bind_ok in Hrun as (eval_loader & _ & Hrun).
  apply bind_ok in Hrun as (trained & Htrain & Hrun).
  apply bind_ok in Hrun as ([evaluated acc] & Heval & [= <- _]).
  apply train_epochs_frame in Htrain as (_ & Hgroup & _ & _ & Hnames).
  pose proof (evaluation_cell_model _ _ _ _ _ _ _ _ Heval) as Hmodel.
  pose proof (evaluation_cell_optimizer _ _ _ _ Heval) as Hopt.
  exists (state_dict (model evaluated)).
  split; [apply lookup_insert_eq|].
  assert (Hkeys : (state_dict (model evaluated)).*1 =
                  (named_parameters (new_module base num_labels)).*1).
  { unfold state_dict. rewrite tensors_names, Hmodel. exact Hnames. }
  split.
  - rewrite Hkeys. apply new_module_names.
  - cbn [optimizer save_cell]. by rewrite Hopt, Hgroup, Hkeys.
Qed.

(** X11. A training split without examples stops the notebook in the
    loader cell: [DataLoader(..., shuffle=True)] refuses a dataset
    without examples with [ValueError], whatever the batch size, and
    the run raises it before any epoch and saves nothing. For every
    other training split the loader is built, and the loader of the
    evaluation split, which does not shuffle, is built in every
    case. *)
Theorem training_on_empty_dataset (base : PreTrainedModel) (validation : RawDataset)
    (seed : nat) :
  (∀ max_length bs,
     DataLoader_init (GlueDataset_init tokenizer [] max_length) bs true = Raise ValueError) ∧
  whole_run base [] validation seed = Raise ValueError ∧
  (∀ train, train ≠ [] → is_ok (loader_cell tokenizer train true) = true) ∧
  (∀ split, is_ok (loader_cell tokenizer split false) = true).
Proof.
  split; [done|]. split; [done|]. split.
  - intros train Htrain. unfold loader_cell, DataLoader_init.
    rewrite GlueDataset_init_len. by destruct train.
  - intros split. reflexivity.
Qed.

End NotebookExtras.

(** ** The download cell *)

Lemma download_loop (chunks : list (list Byte.byte)) (fs : FileSystem)
    (content : list Byte.byte) :
  fs !! model_path = Some content →
  let fs' :=
    foldl
      (λ fs chunk, match chunk with [] => fs | _ :: _ => file_write model_path chunk fs end)
      fs chunks in
  fs' !! model_path = Some (content ++ concat chunks) ∧
  ∀ path, path ≠ model_path → fs' !! path = fs !! path.
Proof.
  revert fs content. induction chunks as [|chunk chunks IH]; intros fs content Hfs; simpl.
  - by rewrite app_nil_r.
  - destruct chunk as [|b chunk].
    + by apply IH.
    + destruct (IH (file_write model_path (b :: chunk) fs) (content ++ b :: chunk)) as [Hfile Hrest].
      { unfold file_write. by rewrite lookup_alter_eq, Hfs. }
      split; [by rewrite Hfile, <- app_assoc|].
      intros path Hpath. rewrite (Hrest path Hpath). unfold file_write.
      by rewrite lookup_alter_ne.
Qed.

(** X18. After the download the file holds the chunks of the response
    one after the other, that is, the body as it was streamed: what the
    file held before is gone, an empty chunk changes nothing, and no
    other file is touched. *)
Theorem download_writes_the_stream (chunks : list (list Byte.byte)) (fs : FileSystem) :
  download chunks fs !! model_path = Some (concat chunks) ∧
  ∀ path, path ≠ model_path → download chunks fs !! path = fs !! path.
Proof.
  unfold download.
  destruct (download_loop chunks (open_wb model_path fs) [] (lookup_insert_eq _ _ _))
    as [Hfile Hrest].
  split; [exact Hfile|].
  intros path Hpath. rewrite (Hrest path Hpath). unfold open_wb. by rewrite lookup_insert_ne.
Qed.

(** X19. A download replaces an earlier one: downloading twice leaves
    the file system that the second download alone would leave, and a
    stream with the same bytes in other chunks leaves the same file. *)
Theorem download_replaces_earlier_download (earlier chunks chunks' : list (list Byte.byte))
    (fs : FileSystem) :
  concat chunks = concat chunks' →
  download chunks (download earlier fs) = download chunks' fs.
Proof.
  intros Hsame. apply map_eq. intros path.
  destruct (download_loop chunks (open_wb model_path (download earlier fs)) []
              (lookup_insert_eq _ _ _)) as [Hfile Hrest].
  destruct (download_loop chunks' (open_wb model_path fs) [] (lookup_insert_eq _ _ _))
    as [Hfile' Hrest'].
  destruct (download_loop earlier (open_wb model_path fs) [] (lookup_insert_eq _ _ _))
    as [_ Hearlier].
  unfold download in *. destruct (decide (path = model_path)) as [->|Hpath].
  - by rewrite Hfile, Hfile', Hsame.
  - assert (Hopen : ∀ g : FileSystem, open_wb model_path g !! path = g !! path).
    { intros g. unfold open_wb. by rewrite lookup_insert_ne. }
    rewrite (Hrest path Hpath), (Hrest' path Hpath), !Hopen.
    exact (eq_trans (Hearlier path Hpath) (Hopen fs)).
Qed.

(** ** The further properties on the stand-ins *)

Lemma forward_without_first_position_example :
  CustomClassifier_forward Toy.base_model_call Toy.bernoulli (model Toy.start) 7
    (matrix ([[]] : list (list Z))) (matrix ([[]] : list (list Z))) = Raise IndexError.
Proof.
  refine (forward_without_first_position Toy.base_model_call Toy.bernoulli (model Toy.start) 7
            (matrix ([[]] : list (list Z))) (matrix ([[]] : list (list Z))) [[]] eq_refl _).
  apply list_elem_of_here.
Defined.

Lemma forward_hidden_size_mismatch_example :
  CustomClassifier_forward Toy.narrow_base_model_call Toy.bernoulli (model Toy.start) 7
    (matrix [[104; 105]]%Z) (matrix [[1; 1]]%Z) = Raise RuntimeError.
Proof.
  refine (forward_hidden_size_mismatch Toy.narrow_base_model_call Toy.bernoulli
            (model Toy.start) 2 7 1 2 1 (matrix [[104; 105]]%Z) (matrix [[1; 1]]%Z)
            [[[inject_Z 104]; [inject_Z 105]]] _ eq_refl _ _ _ _ _).
  - eexists _, _. split; reflexivity.
  - split; [reflexivity|]. repeat constructor.
  - simpl. lia.
  - lia.
  - lia.
  - lia.
Defined.

Lemma new_module_accepts_every_batch_example :
  Forall2
    (λ fetched idxs, ∃ batch input_ids attention_mask logits,
       fetched = Ok batch ∧
       batch !! "input_ids" = Some input_ids ∧
       batch !! "attention_mask" = Some attention_mask ∧
       batch !! "labels" = Some (vector (label_at Toy.mrpc <$> idxs)) ∧
       has_shape [length idxs; 8] input_ids = true ∧
       CustomClassifier_forward Toy.base_model_call Toy.bernoulli
         (CustomClassifier_init Toy.init_weight Toy.init_bias Toy.base num_labels) 7
         input_ids attention_mask = Ok logits ∧
       length logits = length idxs ∧
       (1 ≤ length idxs ≤ 2)%nat ∧
       Forall (λ row, length row = 2) logits)
    (DataLoader_iter
       {| dataset := GlueDataset_init Toy.tokenizer Toy.mrpc 8; batch_size := 2;
          shuffle := true |} [2; 0; 1])
    (BatchSampler 2 [] [2; 0; 1]).
Proof.
  refine (new_module_accepts_every_batch Toy.tokenizer Toy.base_model_call Toy.bernoulli
            Toy.init_weight Toy.init_bias Toy.base Toy.mrpc 8 2 7 true [2; 0; 1]
            (toy_tokenizer_two_fields 8) toy_base_model_shapes _ _ _).
  - lia.
  - lia.
  - repeat constructor; simpl; lia.
Defined.

Lemma predicted_labels_are_class_indices_example :
  ∃ predictions,
    predicted_labels Toy.base_model_call Toy.bernoulli (model Toy.start) 7
      {| dataset := GlueDataset_init Toy.tokenizer Toy.mrpc 8; batch_size := 2;
         shuffle := false |} = Ok predictions ∧
    Forall (λ p, (0 ≤ p < Z.of_nat 2)%Z) predictions.
Proof.
  destruct (predicted_labels Toy.base_model_call Toy.bernoulli (model Toy.start) 7
              {| dataset := GlueDataset_init Toy.tokenizer Toy.mrpc 8; batch_size := 2;
                 shuffle := false |}) as [predictions|e] eqn:Hrun.
  - exists predictions. split; [reflexivity|].
    refine (predicted_labels_are_class_indices Toy.base_model_call Toy.bernoulli
              (model Toy.start) 2 7 _ predictions _ Hrun).
    eexists _, _. split; reflexivity.
  - vm_compute in Hrun. discriminate Hrun.
Defined.


Lemma training_cell_writes_no_file_example :
  ∃ st',
    training_cell Toy.base_model_call Toy.bernoulli Toy.randperm Toy.cross_entropy
      Toy.gradient Toy.no_leaves Toy.adamw_update Toy.adamw_next
      {| dataset := GlueDataset_init Toy.tokenizer Toy.mrpc 8; batch_size := 2;
         shuffle := true |} Toy.start = Ok st' ∧
    files st' = files Toy.start ∧
    lr (optimizer st') = lr (optimizer Toy.start) ∧
    param_group (optimizer st') = param_group (optimizer Toy.start) ∧
    training (model st') = true.
Proof.
  destruct (training_cell Toy.base_model_call Toy.bernoulli Toy.randperm Toy.cross_entropy
              Toy.gradient Toy.no_leaves Toy.adamw_update Toy.adamw_next
              {| dataset := GlueDataset_init Toy.tokenizer Toy.mrpc 8; batch_size := 2;
                 shuffle := true |} Toy.start) as [st'|e] eqn:Hrun.
  - exists st'. split; [reflexivity|].
    exact (training_cell_writes_no_file Toy.base_model_call Toy.bernoulli Toy.randperm
             Toy.cross_entropy Toy.gradient Toy.no_leaves nat Toy.adamw_update
             Toy.adamw_next _ _ _ Hrun).
  - vm_compute in Hrun. discriminate Hrun.
Defined.

Lemma training_cell_step_count_example :
  ∃ st',
    training_cell Toy.base_model_call Toy.bernoulli Toy.randperm Toy.cross_entropy
      Toy.gradient Toy.no_leaves Toy.adamw_update Toy.adamw_next
      {| dataset := GlueDataset_init Toy.tokenizer Toy.mrpc 8; batch_size := 2;
         shuffle := true |} Toy.start = Ok st' ∧
    moments (optimizer st') = Nat.iter 6 Toy.adamw_next (moments (optimizer Toy.start)).
Proof.
  destruct (training_cell Toy.base_model_call Toy.bernoulli Toy.randperm Toy.cross_entropy
              Toy.gradient Toy.no_leaves Toy.adamw_update Toy.adamw_next
              {| dataset := GlueDataset_init Toy.tokenizer Toy.mrpc 8; batch_size := 2;
                 shuffle := true |} Toy.start) as [st'|e] eqn:Hrun.
  - exists st'. split; [reflexivity|].
    refine (training_cell_step_count Toy.base_model_call Toy.bernoulli Toy.randperm
              Toy.cross_entropy Toy.gradient Toy.no_leaves nat Toy.adamw_update
              Toy.adamw_next _ _ _ toy_randperm_permutes _ Hrun).
    simpl. lia.
  - vm_compute in Hrun. discriminate Hrun.
Defined.

Lemma evaluation_on_empty_dataset_example :
  evaluation_cell Toy.base_model_call Toy.bernoulli Toy.randperm
    {| dataset := GlueDataset_init Toy.tokenizer [] 8; batch_size := 8; shuffle := false |}
    Toy.start = Raise ZeroDivisionError.
Proof.
  exact (evaluation_on_empty_dataset Toy.base_model_call Toy.bernoulli Toy.randperm nat
           {| dataset := GlueDataset_init Toy.tokenizer [] 8; batch_size := 8;
              shuffle := false |} Toy.start eq_refl eq_refl).
Defined.

Lemma evaluation_cell_only_forwards_example :
  ∃ st' avg_accuracy,
    evaluation_cell Toy.base_model_call Toy.bernoulli Toy.randperm
      {| dataset := GlueDataset_init Toy.tokenizer Toy.mrpc 8; batch_size := 2;
         shuffle := false |} Toy.start = Ok (st', avg_accuracy) ∧
    log st' = log Toy.start ++
              EvEvalMode :: replicate 2 EvForward ++ [EvPrintAccuracy avg_accuracy] ∧
    optimizer st' = optimizer Toy.start ∧
    rng st' = S (rng Toy.start) ∧
    files st' = files Toy.start.
Proof.
  destruct (evaluation_cell Toy.base_model_call Toy.bernoulli Toy.randperm
              {| dataset := GlueDataset_init Toy.tokenizer Toy.mrpc 8; batch_size := 2;
                 shuffle := false |} Toy.start) as [[st' avg_accuracy]|e] eqn:Hrun.
  - exists st', avg_accuracy. split; [reflexivity|].
    exact (evaluation_cell_only_forwards Toy.base_model_call Toy.bernoulli Toy.randperm nat
             {| dataset := GlueDataset_init Toy.tokenizer Toy.mrpc 8; batch_size := 2;
                shuffle := false |} Toy.start st' avg_accuracy eq_refl Hrun).
  - vm_compute in Hrun. discriminate Hrun.
Defined.

Lemma shuffled_epoch_is_full_pass_example :
  let train_loader :=
    {| dataset := GlueDataset_init Toy.tokenizer Toy.mrpc 8; batch_size := 2;
       shuffle := true |} in
  ∃ lss,
    Forall2 (λ fetched ls, ∃ batch, fetched = Ok batch ∧ batch !! "labels" = Some (vector ls))
      (DataLoader_start Toy.randperm Toy.start train_loader).2 lss ∧
    concat lss ≡ₚ label <$> Toy.mrpc.
Proof.
  exact (shuffled_epoch_is_full_pass Toy.tokenizer Toy.randperm nat Toy.mrpc 8 2 Toy.start
           (toy_tokenizer_two_fields 8) toy_randperm_permutes).
Defined.

Lemma named_parameters_are_distinct_example :
  NoDup (state_dict (CustomClassifier_init Toy.init_weight Toy.init_bias Toy.base 2)).*1.
Proof.
  refine (named_parameters_are_distinct Toy.init_weight Toy.init_bias Toy.base 2 _).
  apply NoDup_singleton.
Defined.

Lemma notebook_saves_what_it_trains_example :
  ∃ st avg_accuracy artifact,
    Toy.run = Ok (st, avg_accuracy) ∧
    files st !! "./my_custom_model_falcon.pt" = Some artifact ∧
    artifact.*1 = (with_prefix "base_model." (base_parameters Toy.base)).*1 ++
                  ["classifier.1.weight"; "classifier.1.bias"] ∧
    param_group (optimizer st) = artifact.*1.
Proof.
  destruct Toy.run as [[st avg_accuracy]|e] eqn:Hrun.
  - destruct (notebook_saves_what_it_trains Toy.tokenizer Toy.base_model_call Toy.bernoulli
                Toy.init_weight Toy.init_bias Toy.randperm Toy.cross_entropy Toy.gradient
                Toy.no_leaves nat 0 Toy.adamw_update Toy.adamw_next Toy.base Toy.mrpc
                Toy.mrpc 7 st avg_accuracy Hrun) as (artifact & Hsaved).
    exists st, avg_accuracy, artifact. split; [reflexivity | exact Hsaved].
  - vm_compute in Hrun. discriminate Hrun.
Defined.

Lemma download_replaces_earlier_download_example :
  download [[Byte.x64; Byte.x65]; []; [Byte.x66]]
    (download [[Byte.x70]] {[ "./notes.txt" := [Byte.x6e] ]}) =
  download [[Byte.x64]; [Byte.x65; Byte.x66]] {[ "./notes.txt" := [Byte.x6e] ]}.
Proof.
  exact (download_replaces_earlier_download [[Byte.x70]] [[Byte.x64; Byte.x65]; []; [Byte.x66]]
           [[Byte.x64]; [Byte.x65; Byte.x66]] {[ "./notes.txt" := [Byte.x6e] ]} eq_refl).
Defined.
